(** * oncall.auth: authentication and authorization layer

    A shallow embedding of [src/oncall/auth/__init__.py] and the
    properties its specification states about it.

    Python 2 byte strings are [string] (lists of 8-bit [ascii]); Python
    integers are [Z]; dictionaries ([app_key_cache], [req.context], the
    request headers, the beaker session) are [gmap string _]; the SQL
    tables the module queries are lists of rows and each query is the list
    comprehension the SQL text denotes.  Exceptions and the mutation of the
    module-level cache and of the request object are threaded through a
    state-and-exception monad. *)

From Stdlib Require Import ZArith List String Ascii Lia DecimalString DecimalZ DecimalPos.
From stdpp Require Import gmap strings list.

Local Open Scope string_scope.
Local Open Scope Z_scope.
Local Open Scope list_scope.

(** ** The library functions the module imports

    [hashlib.sha512] (FIPS 180-4), [hmac.new(key, msg, sha512).digest()]
    (RFC 2104) and [base64.urlsafe_b64encode] (RFC 4648, section 5) belong
    to the Python standard library.  They are written out here from their
    standards so that every statement below can be evaluated on concrete
    requests. *)
Module Crypto.

Definition bytes := list Z.

Definition bytes_of_string (s : string) : bytes :=
  map (fun c => Z.of_N (N_of_ascii c)) (list_ascii_of_string s).

Definition string_of_bytes (b : bytes) : string :=
  string_of_list_ascii (map (fun z => ascii_of_N (Z.to_N z)) b).

Definition w64 (x : Z) : Z := Z.land x 0xffffffffffffffff.
Definition add64 (x y : Z) : Z := w64 (x + y).
Definition rotr (n x : Z) : Z :=
  w64 (Z.lor (Z.shiftr x n) (Z.shiftl x (64 - n))).
Definition not64 (x : Z) : Z := Z.lxor x 0xffffffffffffffff.

Definition Ch (x y z : Z) : Z := Z.lxor (Z.land x y) (Z.land (not64 x) z).
Definition Maj (x y z : Z) : Z :=
  Z.lxor (Z.lxor (Z.land x y) (Z.land x z)) (Z.land y z).
Definition Sigma0 (x : Z) : Z := Z.lxor (Z.lxor (rotr 28 x) (rotr 34 x)) (rotr 39 x).
Definition Sigma1 (x : Z) : Z := Z.lxor (Z.lxor (rotr 14 x) (rotr 18 x)) (rotr 41 x).
Definition sigma0 (x : Z) : Z := Z.lxor (Z.lxor (rotr 1 x) (rotr 8 x)) (Z.shiftr x 7).
Definition sigma1 (x : Z) : Z := Z.lxor (Z.lxor (rotr 19 x) (rotr 61 x)) (Z.shiftr x 6).

Definition K512 : list Z := [
    0x428a2f98d728ae22; 0x7137449123ef65cd; 0xb5c0fbcfec4d3b2f; 0xe9b5dba58189dbbc;
    0x3956c25bf348b538; 0x59f111f1b605d019; 0x923f82a4af194f9b; 0xab1c5ed5da6d8118;
    0xd807aa98a3030242; 0x12835b0145706fbe; 0x243185be4ee4b28c; 0x550c7dc3d5ffb4e2;
    0x72be5d74f27b896f; 0x80deb1fe3b1696b1; 0x9bdc06a725c71235; 0xc19bf174cf692694;
    0xe49b69c19ef14ad2; 0xefbe4786384f25e3; 0x0fc19dc68b8cd5b5; 0x240ca1cc77ac9c65;
    0x2de92c6f592b0275; 0x4a7484aa6ea6e483; 0x5cb0a9dcbd41fbd4; 0x76f988da831153b5;
    0x983e5152ee66dfab; 0xa831c66d2db43210; 0xb00327c898fb213f; 0xbf597fc7beef0ee4;
    0xc6e00bf33da88fc2; 0xd5a79147930aa725; 0x06ca6351e003826f; 0x142929670a0e6e70;
    0x27b70a8546d22ffc; 0x2e1b21385c26c926; 0x4d2c6dfc5ac42aed; 0x53380d139d95b3df;
    0x650a73548baf63de; 0x766a0abb3c77b2a8; 0x81c2c92e47edaee6; 0x92722c851482353b;
    0xa2bfe8a14cf10364; 0xa81a664bbc423001; 0xc24b8b70d0f89791; 0xc76c51a30654be30;
    0xd192e819d6ef5218; 0xd69906245565a910; 0xf40e35855771202a; 0x106aa07032bbd1b8;
    0x19a4c116b8d2d0c8; 0x1e376c085141ab53; 0x2748774cdf8eeb99; 0x34b0bcb5e19b48a8;
    0x391c0cb3c5c95a63; 0x4ed8aa4ae3418acb; 0x5b9cca4f7763e373; 0x682e6ff3d6b2b8a3;
    0x748f82ee5defb2fc; 0x78a5636f43172f60; 0x84c87814a1f0ab72; 0x8cc702081a6439ec;
    0x90befffa23631e28; 0xa4506cebde82bde9; 0xbef9a3f7b2c67915; 0xc67178f2e372532b;
    0xca273eceea26619c; 0xd186b8c721c0c207; 0xeada7dd6cde0eb1e; 0xf57d4f7fee6ed178;
    0x06f067aa72176fba; 0x0a637dc5a2c898a6; 0x113f9804bef90dae; 0x1b710b35131c471b;
    0x28db77f523047d84; 0x32caab7b40c72493; 0x3c9ebe0a15c9bebc; 0x431d67c49c100d4c;
    0x4cc5d4becb3e42b6; 0x597f299cfc657e2a; 0x5fcb6fab3ad6faec; 0x6c44198c4a475817
  ].

Definition H512 : list Z := [
    0x6a09e667f3bcc908; 0xbb67ae8584caa73b; 0x3c6ef372fe94f82b; 0xa54ff53a5f1d36f1;
    0x510e527fade682d1; 0x9b05688c2b3e6c1f; 0x1f83d9abfb41bd6b; 0x5be0cd19137e2179
  ].

(** Big-endian encodings of a word on [n] bytes. *)
Fixpoint be_bytes (n : nat) (x : Z) : bytes :=
  match n with
  | O => []
  | S n' => Z.land (Z.shiftr x (8 * Z.of_nat n')) 0xff :: be_bytes n' x
  end.

Definition be_word (b : bytes) : Z :=
  fold_left (fun acc x => Z.lor (Z.shiftl acc 8) x) b 0.

(** Message padding: a 0x80 byte, zeros up to 112 modulo 128, and the
    bit length on 16 bytes. *)
Definition pad512 (msg : bytes) : bytes :=
  let len := Z.of_nat (length msg) in
  let zeros := Z.to_nat ((111 - len) mod 128) in
  msg ++ [0x80] ++ repeat 0 zeros ++ be_bytes 16 (8 * len).

Fixpoint chunks (n : nat) (fuel : nat) (b : bytes) : list bytes :=
  match fuel with
  | O => []
  | S fuel' =>
      match b with
      | [] => []
      | _ => firstn n b :: chunks n fuel' (skipn n b)
      end
  end.

Definition block_words (blk : bytes) : list Z :=
  map be_word (chunks 8 16 blk).

(** The message schedule, kept most-recent-first while it is extended. *)
Fixpoint schedule (n : nat) (rev_w : list Z) : list Z :=
  match n with
  | O => rev_w
  | S n' =>
      let w :=
        add64 (add64 (sigma1 (nth 1 rev_w 0)) (nth 6 rev_w 0))
              (add64 (sigma0 (nth 14 rev_w 0)) (nth 15 rev_w 0)) in
      schedule n' (w :: rev_w)
  end.

Definition round (st : list Z) (kw : Z * Z) : list Z :=
  match st with
  | [a; b; c; d; e; f; g; h] =>
      let t1 := add64 (add64 (add64 h (Sigma1 e)) (add64 (Ch e f g) (fst kw))) (snd kw) in
      let t2 := add64 (Sigma0 a) (Maj a b c) in
      [add64 t1 t2; a; b; c; add64 d t1; e; f; g]
  | _ => st
  end.

Definition compress (st : list Z) (blk : bytes) : list Z :=
  let w := rev (schedule 64 (rev (block_words blk))) in
  let st' := fold_left round (combine K512 w) st in
  map (fun p => add64 (fst p) (snd p)) (combine st st').

Definition sha512 (msg : bytes) : bytes :=
  let padded := pad512 msg in
  let blocks := chunks 128 (length padded) padded in
  flat_map (be_bytes 8) (fold_left compress blocks H512).

(** [hmac.new(key, msg, hashlib.sha512).digest()] *)
Definition hmac_sha512 (key msg : bytes) : bytes :=
  let k0 := if (128 <? Z.of_nat (length key)) then sha512 key else key in
  let k := k0 ++ repeat 0 (128 - length k0)%nat in
  let ipad := map (Z.lxor 0x36) k in
  let opad := map (Z.lxor 0x5c) k in
  sha512 (opad ++ sha512 (ipad ++ msg)).

Definition b64url_alphabet : string :=
  "ABCDEFGHIJKLMNOPQRSTUVWXYZabcdefghijklmnopqrstuvwxyz0123456789-_".

Definition b64char (i : Z) : ascii :=
  match String.get (Z.to_nat i) b64url_alphabet with
  | Some c => c
  | None => "="%char
  end.

(** [base64.urlsafe_b64encode]: three bytes give four characters; a final
    group of one or two bytes is padded with '='. *)
Fixpoint b64encode (fuel : nat) (b : bytes) : list ascii :=
  match fuel with
  | O => []
  | S fuel' =>
      match b with
      | [] => []
      | [x] =>
          [b64char (Z.shiftr x 2); b64char (Z.shiftl (Z.land x 3) 4);
           "="%char; "="%char]
      | [x; y] =>
          [b64char (Z.shiftr x 2);
           b64char (Z.lor (Z.shiftl (Z.land x 3) 4) (Z.shiftr y 4));
           b64char (Z.shiftl (Z.land y 15) 2); "="%char]
      | x :: y :: z :: rest =>
          b64char (Z.shiftr x 2)
          :: b64char (Z.lor (Z.shiftl (Z.land x 3) 4) (Z.shiftr y 4))
          :: b64char (Z.lor (Z.shiftl (Z.land y 15) 2) (Z.shiftr z 6))
          :: b64char (Z.land z 63)
          :: b64encode fuel' rest
      end
  end.

Definition urlsafe_b64encode (b : bytes) : string :=
  string_of_list_ascii (b64encode (length b) b).

Definition hex_of_bytes (b : bytes) : string :=
  let hexd (i : Z) : ascii :=
    match String.get (Z.to_nat i) "0123456789abcdef" with
    | Some c => c | None => "?"%char end in
  string_of_list_ascii
    (flat_map (fun x => [hexd (Z.shiftr x 4); hexd (Z.land x 15)]) b).

End Crypto.

(** ** Python values *)

(** The double-quote character used in the [HTTPForbidden] messages. *)
Definition dquote : string := String (ascii_of_nat 34) EmptyString.

(** [str(n)] and ['%s' % n] for a Python integer. *)
Definition str_of_int (n : Z) : string := NilZero.string_of_int (Z.to_int n).

(** Truth value of a string: the empty string is false. *)
Definition truthy (s : string) : bool :=
  match s with EmptyString => false | String _ _ => true end.

(** [s.startswith(p)] *)
Fixpoint startswith (p s : string) : bool :=
  match p, s with
  | EmptyString, _ => true
  | String a p', String b s' => if Ascii.eqb a b then startswith p' s' else false
  | String _ _, EmptyString => false
  end.

(** [s[n:]] *)
Fixpoint slice_from (n : nat) (s : string) : string :=
  match n, s with
  | O, _ => s
  | S n', String _ s' => slice_from n' s'
  | S _, EmptyString => EmptyString
  end.

(** [s.split(sep, 1)] for a one-character separator: the pieces before and
    after the first occurrence, or the whole string alone. *)
Fixpoint split1 (sep : ascii) (s : string) : list string :=
  match s with
  | EmptyString => [EmptyString]
  | String c s' =>
      if Ascii.eqb c sep then [EmptyString; s']
      else match split1 sep s' with
           | before :: after => String c before :: after
           | [] => []
           end
  end.

(** Exceptions the module raises or lets through. *)
Inductive Exn : Type :=
| HTTPUnauthorized (title description challenges : string)
| HTTPForbidden (title description : string)
| KeyError (key : string)
| ValueError
| UnboundLocalError (name : string)
| TypeError.

(** ** The external store

    The rows of the tables the module reads.  String comparison in a
    [WHERE] clause is taken as exact equality.  [team].[name] is a unique
    key (the scalar subquery of [check_calendar_auth] relies on it), so
    that table is a finite map from name to id.  A [csrf_token] can be
    NULL, which the driver hands over as [None]. *)
Record user_row := { user_id : Z; user_name : string; user_god : bool }.
Record team_user_row := { tu_team_id : Z; tu_user_id : Z }.
Record team_admin_row := { ta_team_id : Z; ta_user_id : Z }.
Record application_row := { application_name : string; application_key : string }.
Record session_row := {
  session_id : string;
  session_csrf_token : option string
}.

Record Database := {
  tbl_user : list user_row;
  tbl_team : gmap string Z;
  tbl_team_user : list team_user_row;
  tbl_team_admin : list team_admin_row;
  tbl_application : list application_row;
  tbl_session : list session_row
}.

(** The statements the module executes, with their bound parameters. *)
Inductive Query : Type :=
| SelectGod (challenger : string)
| SelectAdministeredUsers (challenger : string)
| SelectAdministeredTeams (challenger : string)
| SelectTeamMember (team challenger : string)
| SelectTeamMemberById (team_id : Z) (challenger : string)
| SelectApplicationKey (app_name : string)
| SelectCsrfToken (session_id : string)
| SelectApplications.

Module Sql.

(** SELECT `id` FROM `user` WHERE `god` = TRUE AND `name` = %s *)
Definition select_god (db : Database) (challenger : string) : list Z :=
  map user_id
    (List.filter (fun u => user_god u && String.eqb (user_name u) challenger)
       (tbl_user db)).

(** SELECT DISTINCT(`user`.`name`) FROM `team_admin`
    JOIN `team_user` ON `team_admin`.`team_id` = `team_user`.`team_id`
    JOIN `user` ON `user`.`id` = `team_user`.`user_id`
    JOIN `user` AS `admin` ON `admin`.`id` = `team_admin`.`user_id`
    WHERE `admin`.`name` = %s *)
Definition select_administered_users (db : Database) (challenger : string)
  : list string :=
  nodup string_dec
    (flat_map (fun ta =>
       flat_map (fun tu =>
         if ta_team_id ta =? tu_team_id tu then
           flat_map (fun u =>
             if user_id u =? tu_user_id tu then
               flat_map (fun admin =>
                 if (user_id admin =? ta_user_id ta)
                    && String.eqb (user_name admin) challenger
                 then [user_name u] else [])
                 (tbl_user db)
             else [])
             (tbl_user db)
         else [])
         (tbl_team_user db))
       (tbl_team_admin db)).

(** SELECT `team`.`name` FROM `team_admin`
    JOIN `team` ON `team_admin`.`team_id` = `team`.`id`
    JOIN `user` ON `team_admin`.`user_id` = `user`.`id`
    WHERE `user`.`name` = %s *)
Definition select_administered_teams (db : Database) (challenger : string)
  : list string :=
  flat_map (fun ta =>
    flat_map (fun t : string * Z =>
      if ta_team_id ta =? snd t then
        flat_map (fun u =>
          if (ta_user_id ta =? user_id u)
             && String.eqb (user_name u) challenger
          then [fst t] else [])
          (tbl_user db)
      else [])
      (map_to_list (tbl_team db)))
    (tbl_team_admin db).

(** SELECT `user`.`name` FROM `team_user`
    JOIN `user` ON `team_user`.`user_id` = `user`.`id`
    WHERE `team_user`.`team_id` = %s AND `user`.`name` = %s *)
Definition select_team_member_by_id (db : Database) (team_id : Z)
    (challenger : string) : list string :=
  flat_map (fun tu =>
    flat_map (fun u =>
      if (tu_user_id tu =? user_id u) && (tu_team_id tu =? team_id)
         && String.eqb (user_name u) challenger
      then [user_name u] else [])
      (tbl_user db))
    (tbl_team_user db).

(** The same with
    `team_user`.`team_id` = (SELECT `id` FROM `team` WHERE `name` = %s):
    an unknown team name makes the subquery NULL and no row matches. *)
Definition select_team_member (db : Database) (team challenger : string)
  : list string :=
  match tbl_team db !! team with
  | Some team_id => select_team_member_by_id db team_id challenger
  | None => []
  end.

(** SELECT `key` FROM `application` WHERE `name` = %s *)
Definition select_application_key (db : Database) (app_name : string)
  : list string :=
  map application_key
    (List.filter (fun a => String.eqb (application_name a) app_name)
       (tbl_application db)).

(** SELECT `csrf_token` FROM `session` WHERE `id` = %s *)
Definition select_csrf_token (db : Database) (sid : string)
  : list (option string) :=
  map session_csrf_token
    (List.filter (fun r => String.eqb (session_id r) sid) (tbl_session db)).

End Sql.

(** ** Requests and the process state *)

(** A [falcon.Request]: the WSGI variables the module reads from
    [req.env], the session object stored under ['beaker.session'], the
    headers as [req.get_header] returns them, and the mutable
    [req.context] dictionary. *)
Record Request := {
  method : string;
  env : gmap string string;
  beaker_session : option (gmap string string);
  headers : gmap string string;
  context : gmap string string
}.

(** What a call can read and change: the module-level [app_key_cache],
    the external store, the clock ([int(time.time())]), the statements
    executed so far (most recent first) and the request object that [req]
    refers to. *)
Record State := {
  app_key_cache : gmap string string;
  store : Database;
  clock : Z;
  sql_log : list Query;
  request : Request
}.

Definition set_context (ctx : gmap string string) (r : Request) : Request :=
  {| method := method r; env := env r; beaker_session := beaker_session r;
     headers := headers r; context := ctx |}.

Definition with_request (r : Request) (st : State) : State :=
  {| app_key_cache := app_key_cache st; store := store st; clock := clock st;
     sql_log := sql_log st; request := r |}.

Definition with_cache (c : gmap string string) (st : State) : State :=
  {| app_key_cache := c; store := store st; clock := clock st;
     sql_log := sql_log st; request := request st |}.

Definition with_log (l : list Query) (st : State) : State :=
  {| app_key_cache := app_key_cache st; store := store st; clock := clock st;
     sql_log := l; request := request st |}.

Definition with_store (db : Database) (st : State) : State :=
  {| app_key_cache := app_key_cache st; store := db; clock := clock st;
     sql_log := sql_log st; request := request st |}.

(** ** A state-and-exception monad for the module's functions *)

Inductive Result (A : Type) : Type :=
| Return (a : A)
| Raise (e : Exn).
Arguments Return {A} a.
Arguments Raise {A} e.

Definition Py (A : Type) : Type := State -> Result A * State.

Definition ret {A} (a : A) : Py A := fun st => (Return a, st).
Definition raise {A} (e : Exn) : Py A := fun st => (Raise e, st).

Definition bind {A B} (m : Py A) (k : A -> Py B) : Py B :=
  fun st =>
    match m st with
    | (Return a, st') => k a st'
    | (Raise e, st') => (Raise e, st')
    end.

Notation "x <- m ;; k" := (bind m (fun x => k))
  (at level 100, m at level 99, k at level 200, right associativity).
Notation "m ;;; k" := (bind m (fun _ => k))
  (at level 100, k at level 200, right associativity).

(** [try: body except <caught>: handler] *)
Definition try_except {A} (body : Py A) (caught : Exn -> bool)
    (handler : Py A) : Py A :=
  fun st =>
    match body st with
    | (Raise e, st') => if caught e then handler st' else (Raise e, st')
    | r => r
    end.

(** [d[k]], raising [KeyError] *)
Definition getitem (d : gmap string string) (k : string) : Py string :=
  match d !! k with
  | Some v => ret v
  | None => raise (KeyError k)
  end.

(** [k in d] *)
Definition contains (k : string) (d : gmap string string) : bool :=
  match d !! k with Some _ => true | None => false end.

Definition get_request : Py Request := fun st => (Return (request st), st).

(** [req.context[k] = v] *)
Definition context_setitem (k v : string) : Py unit :=
  fun st =>
    (Return tt,
     with_request (set_context (<[k:=v]> (context (request st))) (request st)) st).

(** [req.get_header(name)]: the value, or [None] when the header is absent. *)
Definition get_header (name : string) : Py (option string) :=
  fun st => (Return (headers (request st) !! name), st).

(** Reading [app_key_cache] and [app_key_cache[k] = v]. *)
Definition get_cache : Py (gmap string string) :=
  fun st => (Return (app_key_cache st), st).

Definition cache_setitem (k v : string) : Py unit :=
  fun st => (Return tt, with_cache (<[k:=v]> (app_key_cache st)) st).

(** [int(time.time())] *)
Definition time_time : Py Z := fun st => (Return (clock st), st).

(** [cursor.execute(q)] on a fresh connection: the statement is logged and
    its rows are read from the store.  The store is taken to answer: an
    error of the connection or of the driver, which no handler of the
    module catches, is not part of this model. *)
Definition cursor_execute {R} (q : Query) (rows : Database -> R) : Py R :=
  fun st => (Return (rows (store st)), with_log (q :: sql_log st) st).

(** ** The module's functions *)

(** [debug_only]: the wrapped function is never called. *)
Definition debug_only {A R} (function : A -> Py R) : A -> Py R :=
  fun _ => raise (HTTPForbidden EmptyString "Admin only action").

Definition is_god (challenger : string) : Py bool :=
  rows <- cursor_execute (SelectGod challenger)
           (fun db => Sql.select_god db challenger);;
  let is_god := Z.of_nat (length rows) in
  ret (negb (is_god =? 0)).

Definition check_user_auth (user : string) : Py unit :=
  req <- get_request;;
  if contains "app" (context req) then ret tt else
  challenger <- getitem (context req) "user";;
  if String.eqb user challenger then ret tt else
  rows <- cursor_execute (SelectAdministeredUsers challenger)
           (fun db => Sql.select_administered_users db challenger);;
  let allowed := existsb (String.eqb user) rows in
  if allowed then ret tt else
  god <- is_god challenger;;
  if god then ret tt else
  raise (HTTPForbidden "Unauthorized"
           ("Action not allowed for " +:+ dquote +:+ challenger +:+ dquote)).

Definition check_team_auth (team : string) : Py unit :=
  req <- get_request;;
  if contains "app" (context req) then ret tt else
  challenger <- getitem (context req) "user";;
  rows <- cursor_execute (SelectAdministeredTeams challenger)
           (fun db => Sql.select_administered_teams db challenger);;
  let allowed := existsb (String.eqb team) rows in
  if allowed then ret tt else
  god <- is_god challenger;;
  if god then ret tt else
  raise (HTTPForbidden "Unauthorized"
           ("Action not allowed: " +:+ dquote +:+ challenger +:+ dquote
            +:+ " is not an admin for " +:+ dquote +:+ team +:+ dquote)).

Definition check_calendar_auth (team : string) (user : option string)
  : Py unit :=
  req <- get_request;;
  if contains "app" (context req) then ret tt else
  challenger <- match user with
               | Some u => ret u
               | None => getitem (context req) "user"
               end;;
  rows <- cursor_execute (SelectTeamMember team challenger)
           (fun db => Sql.select_team_member db team challenger);;
  let user_in_team := Z.of_nat (length rows) in
  if negb (user_in_team =? 0) then ret tt else
  god <- is_god challenger;;
  if god then ret tt else
  raise (HTTPForbidden "Unauthorized"
           ("Action not allowed: " +:+ dquote +:+ challenger +:+ dquote
            +:+ " is not part of " +:+ dquote +:+ team +:+ dquote)).

Definition check_calendar_auth_by_id (team_id : Z) : Py unit :=
  req <- get_request;;
  if contains "app" (context req) then ret tt else
  challenger <- getitem (context req) "user";;
  rows <- cursor_execute (SelectTeamMemberById team_id challenger)
           (fun db => Sql.select_team_member_by_id db team_id challenger);;
  let user_in_team := Z.of_nat (length rows) in
  if negb (user_in_team =? 0) then ret tt else
  god <- is_god challenger;;
  if god then ret tt else
  raise (HTTPForbidden "Unauthorized"
           ("Action not allowed: " +:+ dquote +:+ challenger +:+ dquote
            +:+ " is not a team member")).

(** ['%s %s %s %s' % (window, method, path, body)] *)
Definition format_text (window : Z) (method path body : string) : string :=
  str_of_int window +:+ " " +:+ method +:+ " " +:+ path +:+ " " +:+ body.

(** [base64.urlsafe_b64encode(hmac.new(api_key, text, hashlib.sha512).digest())] *)
Definition hmac_digest (api_key text : string) : string :=
  Crypto.urlsafe_b64encode
    (Crypto.hmac_sha512 (Crypto.bytes_of_string api_key)
       (Crypto.bytes_of_string text)).

(** [streql.equals]: equality of the two strings. *)
Definition equals (a b : string) : bool := String.eqb a b.

Definition is_client_digest_valid (client_digest api_key : string)
    (window : Z) (method path body : string) : bool :=
  let text := format_text window method path body in
  let digest := hmac_digest api_key text in
  if equals client_digest digest then true else false.

Definition wrong_digest : Exn :=
  HTTPUnauthorized "Authentication failure" "Wrong digest" EmptyString.

(** The body of the [try] block of [authenticate_application]. *)
Definition authenticate_application_try (auth_token method path body : string)
  : Py unit :=
  parts <- match split1 ":" (slice_from 5 auth_token) with
           | [a; d] => ret (a, d)
           | _ => raise ValueError
           end;;
  let app_name : string := fst parts in
  let client_digest : string := snd parts in
  cache <- get_cache;;
  (if negb (contains app_name cache) then
     rows <- cursor_execute (SelectApplicationKey app_name)
              (fun db => Sql.select_application_key db app_name);;
     match rows with
     | key :: _ => cache_setitem app_name key
     | [] =>
         raise (HTTPUnauthorized "Authentication failure"
                  "Application not found" EmptyString)
     end
   else ret tt);;;
  cache <- get_cache;;
  (* str() of a byte string is the string itself *)
  api_key <- getitem cache app_name;;
  now <- time_time;;
  let window := now / 5 in
  if is_client_digest_valid client_digest api_key window method path body then
    context_setitem "app" app_name
  else if is_client_digest_valid client_digest api_key (window - 1)
            method path body then
    context_setitem "app" app_name
  else raise wrong_digest.

Definition authenticate_application (auth_token : string) : Py unit :=
  if negb (startswith "hmac " auth_token) then
    raise (HTTPUnauthorized "Authentication failure" "Invalid digest format"
             EmptyString)
  else
  req <- get_request;;
  let method := method req in
  path <- getitem (env req) "PATH_INFO";;
  qs <- getitem (env req) "QUERY_STRING";;
  let path := if truthy qs then path +:+ "?" +:+ qs else path in
  body <- getitem (context req) "body";;
  try_except (authenticate_application_try auth_token method path body)
    (fun e => match e with ValueError | KeyError _ => true | _ => false end)
    (raise wrong_digest).

Definition _authenticate_user : Py unit :=
  req <- get_request;;
  session <- match beaker_session req with
            | Some s => ret s
            | None => raise (KeyError "beaker.session")
            end;;
  try_except
    (user <- getitem session "user";;
     context_setitem "user" user;;;
     sid <- getitem session "_id";;
     rows <- cursor_execute (SelectCsrfToken sid)
              (fun db => Sql.select_csrf_token db sid);;
     match rows with
     | [token] =>
         header <- get_header "X-CSRF-TOKEN";;
         if negb (bool_decide (header = token)) then
           raise (HTTPUnauthorized "Invalid Session" "CSRF validation failed"
                    EmptyString)
         else ret tt
     | _ =>
         raise (HTTPUnauthorized "Invalid Session" "CSRF token missing"
                  EmptyString)
     end)
    (fun e => match e with KeyError _ => true | _ => false end)
    (raise (HTTPUnauthorized "Unauthorized" "User must be logged in"
              EmptyString)).

(** The positional arguments of a handler: the request object or
    anything else ([self], the response, URL parameters). *)
Inductive Arg : Type :=
| ArgRequest
| ArgOther (repr : string).

Definition isinstance_Request (a : Arg) : bool :=
  match a with ArgRequest => true | ArgOther _ => false end.

(** The [for i, arg in enumerate(args)] loop: the index of the first
    request among the arguments; [idx] stays unbound when there is none. *)
Fixpoint first_request (i : nat) (args : list Arg) : option nat :=
  match args with
  | [] => None
  | arg :: rest =>
      if isinstance_Request arg then Some i else first_request (S i) rest
  end.

(** [login_required(function)], for the current binding of the module
    variable [authenticate_user]. *)
Definition login_required {R} (authenticate_user : Py unit)
    (function : list Arg -> Py R) (args : list Arg) : Py R :=
  idx <- match first_request 0 args with
        | Some i => ret i
        | None => raise (UnboundLocalError "idx")
        end;;
  auth_token <- get_header "AUTHORIZATION";;
  (match auth_token with
   | Some token =>
       if truthy token then authenticate_application token
       else authenticate_user
   | None => authenticate_user
   end);;;
  function args.

(** The replacement [init] installs for [authenticate_user] in debug mode. *)
Definition authenticate_user_test_wrapper : Py unit :=
  try_except _authenticate_user
    (fun e => match e with HTTPUnauthorized _ _ _ => true | _ => false end)
    (context_setitem "user" "test_user").

(** ** Notions from the specification *)

(** A character occurs in a string. *)
Fixpoint occurs (c : ascii) (s : string) : bool :=
  match s with
  | EmptyString => false
  | String a s' => Ascii.eqb a c || occurs c s'
  end.

(** The signer's side and the protocol constants, in the words of the
    specification. *)
Module Spec.

(** canonicalPath = path if queryString is empty, else
    path + "?" + queryString *)
Definition canonical_path (path qs : string) : string :=
  if decide (qs = EmptyString) then path else path +:+ "?" +:+ qs.

(** "<window> <HTTP-method> <path-with-query> <raw-body>" *)
Definition digest_input (window : Z) (method cpath body : string) : string :=
  str_of_int window +:+ " " +:+ method +:+ " " +:+ cpath +:+ " " +:+ body.

(** base64url(HMAC-SHA512(secretKey, digest input)) *)
Definition sign (key : string) (window : Z) (method cpath body : string)
  : string :=
  Crypto.urlsafe_b64encode
    (Crypto.hmac_sha512 (Crypto.bytes_of_string key)
       (Crypto.bytes_of_string (digest_input window method cpath body))).

(** hmac <appName>:<digest> *)
Definition signature_header (app_name digest : string) : string :=
  "hmac " +:+ app_name +:+ ":" +:+ digest.

(** floor(unixTimeSeconds / 5) *)
Definition window (unix_time : Z) : Z := unix_time / 5.

End Spec.

(** The credential store resolves [app] to [key]: the cache holds it, or
    the cache has no entry and the first row the store returns for the
    name carries it. *)
Definition resolves_key (st : State) (app key : string) : Prop :=
  app_key_cache st !! app = Some key
  \/ (app_key_cache st !! app = None
      /\ exists rest, Sql.select_application_key (store st) app = key :: rest).

(** The request was authenticated as application [app]. *)
Definition accepted_as (app : string) (r : Result unit * State) : Prop :=
  fst r = Return tt /\ context (request (snd r)) !! "app" = Some app.

(** Two distinct texts with the same digest under [key]. *)
Definition collision (key text1 text2 : string) : Prop :=
  text1 <> text2 /\ hmac_digest key text1 = hmac_digest key text2.

(** The user table has a row for [name] with the superuser flag set. *)
Definition superuser (db : Database) (name : string) : Prop :=
  exists u, In u (tbl_user db) /\ user_name u = name /\ user_god u = true.

(** The specific (non-superuser) condition of each authorization check,
    as the value the check computes before it consults [is_god]. *)
Definition self_or_team_admin (db : Database) (user challenger : string) : bool :=
  String.eqb user challenger
  || existsb (String.eqb user) (Sql.select_administered_users db challenger).

Definition team_admin (db : Database) (team challenger : string) : bool :=
  existsb (String.eqb team) (Sql.select_administered_teams db challenger).

Definition team_member (db : Database) (team challenger : string) : bool :=
  negb (Z.of_nat (length (Sql.select_team_member db team challenger)) =? 0).

Definition team_member_by_id (db : Database) (team_id : Z) (challenger : string)
  : bool :=
  negb (Z.of_nat (length (Sql.select_team_member_by_id db team_id challenger)) =? 0).

(** The value [is_god] returns on a store. *)
Definition god (db : Database) (challenger : string) : bool :=
  negb (Z.of_nat (length (Sql.select_god db challenger)) =? 0).

(** The challenger of [check_calendar_auth]: the [user] argument when
    given, the request's user otherwise. *)
Definition calendar_challenger (user : option string) (req : Request)
  : option string :=
  match user with
  | Some u => Some u
  | None => context req !! "user"
  end.

(** A check allowed the action. *)
Definition allowed (r : Result unit * State) : Prop := fst r = Return tt.

(** The errors of the module, by name. *)
Definition must_be_logged_in : Exn :=
  HTTPUnauthorized "Unauthorized" "User must be logged in" EmptyString.

Definition csrf_token_missing : Exn :=
  HTTPUnauthorized "Invalid Session" "CSRF token missing" EmptyString.

Definition csrf_validation_failed : Exn :=
  HTTPUnauthorized "Invalid Session" "CSRF validation failed" EmptyString.

Definition invalid_digest_format : Exn :=
  HTTPUnauthorized "Authentication failure" "Invalid digest format" EmptyString.

Definition application_not_found : Exn :=
  HTTPUnauthorized "Authentication failure" "Application not found" EmptyString.

(** [except (ValueError, KeyError)] *)
Definition caught_by_digest_handler (e : Exn) : bool :=
  match e with ValueError | KeyError _ => true | _ => false end.

(** The request supplies the three inputs that are read before the
    [try] block. *)
Definition request_inputs (st : State) (path qs body : string) : Prop :=
  env (request st) !! "PATH_INFO" = Some path
  /\ env (request st) !! "QUERY_STRING" = Some qs
  /\ context (request st) !! "body" = Some body.

(** The verdict once the key is known: the two window checks. *)
Definition verdict (app digest key method path body : string) : Py unit :=
  fun st =>
    if is_client_digest_valid digest key (clock st / 5) method path body
       || is_client_digest_valid digest key (clock st / 5 - 1) method path body
    then context_setitem "app" app st
    else (Raise wrong_digest, st).

(** The state after [req.context['user'] = session['user']]. *)
Definition with_user (user : string) (st : State) : State :=
  with_request
    (set_context (<["user":=user]> (context (request st))) (request st)) st.

(** The state after a successful lookup of [app]'s key. *)
Definition after_lookup (app key : string) (st : State) : State :=
  with_cache (<[app:=key]> (app_key_cache st))
    (with_log (SelectApplicationKey app :: sql_log st) st).

(** The ways a call of [authenticate_application] can end, with the
    conditions that lead to each. *)
Inductive Run (auth_token : string) (st : State) : Result unit * State -> Prop :=
| RunNoPrefix :
    startswith "hmac " auth_token = false ->
    Run auth_token st (Raise invalid_digest_format, st)
| RunMissingInput key :
    startswith "hmac " auth_token = true ->
    Run auth_token st (Raise (KeyError key), st)
| RunNoSeparator path qs body :
    startswith "hmac " auth_token = true ->
    request_inputs st path qs body ->
    occurs ":" (slice_from 5 auth_token) = false ->
    Run auth_token st (Raise wrong_digest, st)
| RunCached path qs body app digest key :
    startswith "hmac " auth_token = true ->
    request_inputs st path qs body ->
    split1 ":" (slice_from 5 auth_token) = [app; digest] ->
    app_key_cache st !! app = Some key ->
    Run auth_token st
      (verdict app digest key (method (request st))
         (Spec.canonical_path path qs) body st)
| RunLookupFound path qs body app digest key rest :
    startswith "hmac " auth_token = true ->
    request_inputs st path qs body ->
    split1 ":" (slice_from 5 auth_token) = [app; digest] ->
    app_key_cache st !! app = None ->
    Sql.select_application_key (store st) app = key :: rest ->
    Run auth_token st
      (verdict app digest key (method (request st))
         (Spec.canonical_path path qs) body (after_lookup app key st))
| RunLookupNotFound path qs body app digest :
    startswith "hmac " auth_token = true ->
    request_inputs st path qs body ->
    split1 ":" (slice_from 5 auth_token) = [app; digest] ->
    app_key_cache st !! app = None ->
    Sql.select_application_key (store st) app = [] ->
    Run auth_token st
      (Raise application_not_found,
       with_log (SelectApplicationKey app :: sql_log st) st).

(** The decision of [authenticate_application] read as a function of the
    header, the cache, the store, the clock and the three request values
    that enter the digest text. *)
Definition digest_outcome (auth_token : string) (cache : gmap string string)
    (db : Database) (now : Z) (method cpath body : string) : Result unit :=
  if negb (startswith "hmac " auth_token) then Raise invalid_digest_format
  else
    match split1 ":" (slice_from 5 auth_token) with
    | [app; digest] =>
        let resolved :=
          match cache !! app with
          | Some key => Some key
          | None => head (Sql.select_application_key db app)
          end in
        match resolved with
        | Some key =>
            if is_client_digest_valid digest key (now / 5) method cpath body
               || is_client_digest_valid digest key (now / 5 - 1) method cpath body
            then Return tt
            else Raise wrong_digest
        | None => Raise application_not_found
        end
    | _ => Raise wrong_digest
    end.

(** ** A concrete deployment, used to evaluate the statements *)
Module Demo.

Definition users : list user_row :=
  [ {| user_id := 1; user_name := "alice"; user_god := false |};
    {| user_id := 2; user_name := "root"; user_god := true |};
    {| user_id := 3; user_name := "bob"; user_god := false |} ].

Definition db : Database :=
  {| tbl_user := users;
     tbl_team := {[ "sre" := 10 ]};
     tbl_team_user := [ {| tu_team_id := 10; tu_user_id := 1 |} ];
     tbl_team_admin := [ {| ta_team_id := 10; ta_user_id := 3 |} ];
     tbl_application :=
       [ {| application_name := "svc-a"; application_key := "K" |};
         {| application_name := "team:svc"; application_key := "K2" |} ];
     tbl_session :=
       [ {| session_id := "s1"; session_csrf_token := Some "tok" |};
         {| session_id := "s2"; session_csrf_token := Some EmptyString |};
         {| session_id := "s3"; session_csrf_token := None |} ] |}.

(** GET /widgets/42 with an empty body. *)
Definition req (session : option (gmap string string))
    (hdrs ctx : gmap string string) : Request :=
  {| method := "GET";
     env := {[ "PATH_INFO" := "/widgets/42"; "QUERY_STRING" := EmptyString ]};
     beaker_session := session;
     headers := hdrs;
     context := <["body" := EmptyString]> ctx |}.

(** The same request with another split between path and query string. *)
Definition query_request (path qs : string) : Request :=
  {| method := "GET";
     env := {[ "PATH_INFO" := path; "QUERY_STRING" := qs ]};
     beaker_session := None;
     headers := ∅;
     context := {[ "body" := EmptyString ]} |}.

Definition state (now : Z) (r : Request) : State :=
  {| app_key_cache := ∅; store := db; clock := now; sql_log := [];
     request := r |}.

(** The time the signer signs at, and the header it sends for [svc-a]. *)
Definition signed_at : Z := 1700000000.

Definition svc_a_header : string :=
  Spec.signature_header "svc-a"
    (Spec.sign "K" (Spec.window signed_at) "GET" "/widgets/42" EmptyString).

Definition plain_request : Request := req None ∅ ∅.

(** The header a signer sends for the application named [team:svc]. *)
Definition team_svc_header : string :=
  Spec.signature_header "team:svc"
    (Spec.sign "K2" (Spec.window signed_at) "GET"
       (Spec.canonical_path "/widgets/42" EmptyString) EmptyString).

(** The header signed over the canonical path [/widgets?id=42]. *)
Definition query_header : string :=
  Spec.signature_header "svc-a"
    (Spec.sign "K" (Spec.window signed_at) "GET" "/widgets?id=42" EmptyString).

(** A request of alice's session [s1], whose stored token is [tok], of
    session [s2], whose stored token is the empty string, or of session
    [s3], whose stored token is NULL. *)
Definition session_request (sid : string) (csrf : option string) : Request :=
  req (Some {[ "user" := "alice"; "_id" := sid ]})
      (match csrf with
       | Some v => {[ "X-CSRF-TOKEN" := v ]}
       | None => ∅
       end) ∅.

(** A request whose context names its user, or the application it was
    authenticated as. *)
Definition user_request (user : string) : Request :=
  req None ∅ {[ "user" := user ]}.

Definition app_request (app : string) : Request :=
  req None ∅ {[ "app" := app ]}.

End Demo.

(** ** Team relations, read off the tables *)

(** [challenger] has a [team_admin] row for the team named [team]. *)
Definition administers_team (db : Database) (challenger team : string) : Prop :=
  exists ta u,
    In ta (tbl_team_admin db) /\ tbl_team db !! team = Some (ta_team_id ta)
    /\ In u (tbl_user db) /\ user_id u = ta_user_id ta
    /\ user_name u = challenger.

(** [challenger] has a [team_user] row for the team with id [team_id]. *)
Definition member_of_team_id (db : Database) (challenger : string) (team_id : Z)
  : Prop :=
  exists tu u,
    In tu (tbl_team_user db) /\ tu_team_id tu = team_id
    /\ In u (tbl_user db) /\ user_id u = tu_user_id tu
    /\ user_name u = challenger.

(** [challenger] has a [team_user] row for the team named [team]. *)
Definition member_of_team (db : Database) (challenger team : string) : Prop :=
  exists team_id,
    tbl_team db !! team = Some team_id /\ member_of_team_id db challenger team_id.

(** [challenger] has a [team_admin] row for a team in which [user] has a
    [team_user] row. *)
Definition administers_user (db : Database) (challenger user : string) : Prop :=
  exists ta tu u admin,
    In ta (tbl_team_admin db) /\ In tu (tbl_team_user db)
    /\ ta_team_id ta = tu_team_id tu
    /\ In u (tbl_user db) /\ user_id u = tu_user_id tu /\ user_name u = user
    /\ In admin (tbl_user db) /\ user_id admin = ta_user_id ta
    /\ user_name admin = challenger.

(** The [HTTPForbidden] of each check, for a challenger and a target. *)
Definition forbidden_user (challenger : string) : Exn :=
  HTTPForbidden "Unauthorized"
    ("Action not allowed for " +:+ dquote +:+ challenger +:+ dquote).

Definition forbidden_team (challenger team : string) : Exn :=
  HTTPForbidden "Unauthorized"
    ("Action not allowed: " +:+ dquote +:+ challenger +:+ dquote
     +:+ " is not an admin for " +:+ dquote +:+ team +:+ dquote).

Definition forbidden_calendar (challenger team : string) : Exn :=
  HTTPForbidden "Unauthorized"
    ("Action not allowed: " +:+ dquote +:+ challenger +:+ dquote
     +:+ " is not part of " +:+ dquote +:+ team +:+ dquote).

Definition forbidden_calendar_by_id (challenger : string) : Exn :=
  HTTPForbidden "Unauthorized"
    ("Action not allowed: " +:+ dquote +:+ challenger +:+ dquote
     +:+ " is not a team member").

(** The request context names neither an application nor a user. *)
Definition anonymous (st : State) : Prop :=
  context (request st) !! "app" = None
  /\ context (request st) !! "user" = None.

(** The request context names [challenger] as its user and no application. *)
Definition user_context (st : State) (challenger : string) : Prop :=
  context (request st) !! "app" = None
  /\ context (request st) !! "user" = Some challenger.

(** The state at another time of the clock. *)
Definition with_clock (t : Z) (st : State) : State :=
  {| app_key_cache := app_key_cache st; store := store st; clock := t;
     sql_log := sql_log st; request := request st |}.

(** Every cached key is a key the store holds for that application. *)
Definition cache_reflects_store (st : State) : Prop :=
  forall app key,
    app_key_cache st !! app = Some key ->
    In key (Sql.select_application_key (store st) app).

(** A signed POST with a body, for the evaluation of the statements. *)
Module Notes.

Definition post (path body : string) : Request :=
  {| method := "POST";
     env := {[ "PATH_INFO" := path; "QUERY_STRING" := EmptyString ]};
     beaker_session := None;
     headers := ∅;
     context := {[ "body" := body ]} |}.

(** The header signed for POST /notes/a b with body c. *)
Definition header : string :=
  Spec.signature_header "svc-a"
    (Spec.sign "K" (Spec.window Demo.signed_at) "POST" "/notes/a b" "c").

End Notes.

(** How a guarded call gets past authentication: refused with an
    exception, or passed on to the handler in a state. *)
Inductive Gate : Type :=
| Refused (e : Exn) (st : State)
| Passed (st : State).

Definition through {R} (g : Gate) (handler : Py R) : Result R * State :=
  match g with
  | Refused e st => (Raise e, st)
  | Passed st => handler st
  end.

(** The request context names an application or a user. *)
Definition identified (st : State) : Prop :=
  is_Some (context (request st) !! "app")
  \/ is_Some (context (request st) !! "user").

(** ** Start-up: [init]

    [init] rebinds module-level names and fills [app_key_cache].  The
    names it can rebind are the fields of [Globals]; the application
    object is the list of the routes added to it.  The configuration is
    read through three entries: the truth values of
    [config.get('debug', False)] and [config.get('docs')], and
    [config['module']].  Importing the configured module and building its
    [Authenticator] is left to [load_authenticator]; the logger calls
    have no effect on this state. *)
Record Config := {
  config_debug : bool;
  config_docs : bool;
  config_module : option string
}.

(** What a check hands back: [None] from the module's functions, [True]
    from the debug lambdas. *)
Inductive PyValue : Type := PyNone | PyTrue.

(** How a call passes the optional [user] of [check_calendar_auth]: not
    at all, as a third positional argument, or as the keyword [user=]. *)
Inductive UserArgument : Type :=
| UserOmitted
| UserPositional (user : option string)
| UserKeyword (user : option string).

(** The value the parameter [user=None] of [check_calendar_auth] takes. *)
Definition user_parameter (a : UserArgument) : option string :=
  match a with
  | UserOmitted => None
  | UserPositional user | UserKeyword user => user
  end.

(** The binding of [login_required]: the module's decorator, or
    [lambda x: x]. *)
Inductive LoginRequired : Type := Guarded | Unguarded.

Record Globals (M : Type) := {
  g_check_team_auth : string -> Py PyValue;
  g_check_user_auth : string -> Py PyValue;
  g_check_calendar_auth : string -> UserArgument -> Py PyValue;
  g_check_calendar_auth_by_id : Z -> Py PyValue;
  g_debug_only : forall R : Type, (list Arg -> Py R) -> list Arg -> Py R;
  g_auth_manager : option M;
  g_authenticate_user : Py unit;
  g_login_required : LoginRequired
}.
Arguments g_check_team_auth {M} _.
Arguments g_check_user_auth {M} _.
Arguments g_check_calendar_auth {M} _.
Arguments g_check_calendar_auth_by_id {M} _.
Arguments g_debug_only {M} _.
Arguments g_auth_manager {M} _.
Arguments g_authenticate_user {M} _.
Arguments g_login_required {M} _.

(** A function that returns nothing, as a value-returning call. *)
Definition returning_none (m : Py unit) : Py PyValue :=
  _ <- m;; ret PyNone.

(** The bindings when the module has been imported and [init] has not
    run. *)
Definition module_globals {M : Type} : Globals M :=
  {| g_check_team_auth := fun team => returning_none (check_team_auth team);
     g_check_user_auth := fun user => returning_none (check_user_auth user);
     g_check_calendar_auth :=
       fun team user =>
         returning_none (check_calendar_auth team (user_parameter user));
     g_check_calendar_auth_by_id :=
       fun team_id => returning_none (check_calendar_auth_by_id team_id);
     g_debug_only := fun R => debug_only;
     g_auth_manager := None;
     g_authenticate_user := _authenticate_user;
     g_login_required := Guarded |}.

(** The rebinding of the [if config.get('debug', False)] block.  The
    replacement of [check_calendar_auth] is [lambda x, y, **kwargs: True]:
    it takes the user as a keyword only, and a third positional argument
    is a TypeError. *)
Definition debug_globals {M : Type} (g : Globals M) : Globals M :=
  {| g_check_team_auth := fun _ => ret PyTrue;
     g_check_user_auth := fun _ => ret PyTrue;
     g_check_calendar_auth :=
       fun _ user =>
         match user with
         | UserPositional _ => raise TypeError
         | UserOmitted | UserKeyword _ => ret PyTrue
         end;
     g_check_calendar_auth_by_id := fun _ => ret PyTrue;
     g_debug_only := fun R function => function;
     g_auth_manager := g_auth_manager g;
     g_authenticate_user := authenticate_user_test_wrapper;
     g_login_required := g_login_required g |}.

Definition set_login_required {M : Type} (l : LoginRequired) (g : Globals M)
  : Globals M :=
  {| g_check_team_auth := g_check_team_auth g;
     g_check_user_auth := g_check_user_auth g;
     g_check_calendar_auth := g_check_calendar_auth g;
     g_check_calendar_auth_by_id := g_check_calendar_auth_by_id g;
     g_debug_only := g_debug_only g;
     g_auth_manager := g_auth_manager g;
     g_authenticate_user := g_authenticate_user g;
     g_login_required := l |}.

Definition set_auth_manager {M : Type} (m : option M) (g : Globals M)
  : Globals M :=
  {| g_check_team_auth := g_check_team_auth g;
     g_check_user_auth := g_check_user_auth g;
     g_check_calendar_auth := g_check_calendar_auth g;
     g_check_calendar_auth_by_id := g_check_calendar_auth_by_id g;
     g_debug_only := g_debug_only g;
     g_auth_manager := m;
     g_authenticate_user := g_authenticate_user g;
     g_login_required := g_login_required g |}.

(** A call of a handler decorated with [login_required], through the
    current bindings: the wrapper looks [authenticate_user] up when it
    runs. *)
Definition call_login_required {M R : Type} (g : Globals M)
    (function : list Arg -> Py R) (args : list Arg) : Py R :=
  match g_login_required g with
  | Guarded => login_required (g_authenticate_user g) function args
  | Unguarded => function args
  end.

(** SELECT `name`, `key` FROM `application` *)
Definition select_applications (db : Database) : list (string * string) :=
  map (fun a => (application_name a, application_key a)) (tbl_application db).

(** [for row in cursor: app_key_cache[row[0]] = row[1]] *)
Fixpoint store_application_keys (rows : list (string * string)) : Py unit :=
  match rows with
  | [] => ret tt
  | row :: rest =>
      _ <- cache_setitem (fst row) (snd row);; store_application_keys rest
  end.

(** The cache loading of [init]. *)
Definition load_application_keys : Py unit :=
  rows <- cursor_execute SelectApplications select_applications;;
  store_application_keys rows.

(** The process: the bindings, the routes of the application object and
    the state the module's functions act on. *)
Record Process (M : Type) := {
  proc_globals : Globals M;
  proc_routes : list (string * string);
  proc_state : State
}.
Arguments proc_globals {M} _.
Arguments proc_routes {M} _.
Arguments proc_state {M} _.

(** [application.add_route('/login', login)] and
    [application.add_route('/logout', logout)] *)
Definition add_routes (routes : list (string * string))
  : list (string * string) :=
  routes ++ [("/login", "login"); ("/logout", "logout")].

Definition init {M : Type} (load_authenticator : string -> Config -> Result M)
    (config : Config) (p : Process M) : Result unit * Process M :=
  let g := if config_debug config then debug_globals (proc_globals p)
           else proc_globals p in
  if config_docs config then
    (Return tt,
     {| proc_globals := set_login_required Unguarded g;
        proc_routes := add_routes (proc_routes p);
        proc_state := proc_state p |})
  else
    let st := snd (load_application_keys (proc_state p)) in
    match config_module config with
    | None =>
        (Raise (KeyError "module"),
         {| proc_globals := g; proc_routes := proc_routes p; proc_state := st |})
    | Some name =>
        match load_authenticator name config with
        | Raise e =>
            (Raise e,
             {| proc_globals := g; proc_routes := proc_routes p;
                proc_state := st |})
        | Return manager =>
            (Return tt,
             {| proc_globals := set_auth_manager (Some manager) g;
                proc_routes := add_routes (proc_routes p);
                proc_state := st |})
        end
    end.

(** The key of the last row the store holds for an application. *)
Definition last_key (db : Database) (app : string) : option string :=
  last (Sql.select_application_key db app).

(** * Properties *)

(** ** Known answers for the library functions *)

Example sha512_abc :
  Crypto.hex_of_bytes (Crypto.sha512 (Crypto.bytes_of_string "abc")) =
  "ddaf35a193617abacc417349ae20413112e6fa4e89a97ea20a9eeee64b55d39a2192992a274fc1a836ba3c23a3feebbd454d4423643ce80e2a9ac94fa54ca49f".
Proof. vm_compute. reflexivity. Qed.

Example hmac_rfc4231_case2 :
  Crypto.hex_of_bytes
    (Crypto.hmac_sha512 (Crypto.bytes_of_string "Jefe")
       (Crypto.bytes_of_string "what do ya want for nothing?")) =
  "164b7a7bfcf819e2e395fbe73b56e0a387bd64222e831fd610270cd7ea2505549758bf75c05a994a6d034f65f8f0e6fdcaeab1a34d4a6b4b636e070a38bce737".
Proof. vm_compute. reflexivity. Qed.

Example hmac_rfc4231_case6 :
  Crypto.hex_of_bytes
    (Crypto.hmac_sha512 (repeat 0xaa 131)
       (Crypto.bytes_of_string
          "Test Using Larger Than Block-Size Key - Hash Key First")) =
  "80b24263c7c1a3ebb71493c1dd7be8b49b46d1f41b4aeec1121b013783f8f3526b56d037e05f2598bd0fd2215d6a1e5295e64f73f63f0aec8b915a985d786598".
Proof. vm_compute. reflexivity. Qed.

Example b64_hmac_widgets :
  Crypto.urlsafe_b64encode
    (Crypto.hmac_sha512 (Crypto.bytes_of_string "K")
       (Crypto.bytes_of_string "340000000 GET /widgets/42 ")) =
  "jcT3TjBHMLFzrK7qjiz0K-4VGy3WecIV5hYaHJ9LLeFShn70e6dERRuCWfYM34aa-9C8RlsZltSCbS85GpWgpQ==".
Proof. vm_compute. reflexivity. Qed.

(** ** Running the monad *)

Lemma bind_return {A B} (m : Py A) (k : A -> Py B) st a st' :
  m st = (Return a, st') -> bind m k st = k a st'.
Proof. intros H. unfold bind. rewrite H. reflexivity. Qed.

Lemma getitem_some (d : gmap string string) k v st :
  d !! k = Some v -> getitem d k st = (Return v, st).
Proof. intros H. unfold getitem. rewrite H. reflexivity. Qed.

Lemma god_superuser db challenger :
  god db challenger = true <-> superuser db challenger.
Proof.
  unfold god, superuser, Sql.select_god. split.
  - intros H.
    destruct (List.filter _ (tbl_user db)) as [|u l] eqn:E; [discriminate|].
    assert (Hin : In u (List.filter
      (fun u => user_god u && String.eqb (user_name u) challenger) (tbl_user db))).
    { rewrite E. left. reflexivity. }
    apply filter_In in Hin. destruct Hin as [Hin Hu].
    apply andb_true_iff in Hu. destruct Hu as [Hg Hn].
    apply String.eqb_eq in Hn. exists u. auto.
  - intros (u & Hin & Hn & Hg).
    assert (Hf : In u (List.filter
      (fun u => user_god u && String.eqb (user_name u) challenger) (tbl_user db))).
    { apply filter_In. split; [assumption|].
      rewrite Hg, Hn, String.eqb_refl. reflexivity. }
    destruct (List.filter _ (tbl_user db)); [destruct Hf|]. reflexivity.
Qed.

(** ** Authorization checks *)

(** Unfolds the monad operations down to the state they act on. *)
Ltac run :=
  unfold getitem, try_except, get_request, get_header, get_cache,
    cache_setitem, context_setitem, time_time, cursor_execute, contains,
    bind, ret, raise; simpl.

Lemma check_user_auth_app user st :
  is_Some (context (request st) !! "app") ->
  check_user_auth user st = (Return tt, st).
Proof.
  intros [a Ha]. unfold check_user_auth. run. rewrite Ha. reflexivity.
Qed.

Lemma check_team_auth_app team st :
  is_Some (context (request st) !! "app") ->
  check_team_auth team st = (Return tt, st).
Proof.
  intros [a Ha]. unfold check_team_auth. run. rewrite Ha. reflexivity.
Qed.

Lemma check_calendar_auth_app team user st :
  is_Some (context (request st) !! "app") ->
  check_calendar_auth team user st = (Return tt, st).
Proof.
  intros [a Ha]. unfold check_calendar_auth. run. rewrite Ha. reflexivity.
Qed.

Lemma check_calendar_auth_by_id_app team_id st :
  is_Some (context (request st) !! "app") ->
  check_calendar_auth_by_id team_id st = (Return tt, st).
Proof.
  intros [a Ha]. unfold check_calendar_auth_by_id. run. rewrite Ha. reflexivity.
Qed.

(** Without the application mark, each check is the disjunction of its
    specific condition and of [god]. *)
Lemma check_user_auth_outcome user challenger st :
  context (request st) !! "app" = None ->
  context (request st) !! "user" = Some challenger ->
  fst (check_user_auth user st) =
  if self_or_team_admin (store st) user challenger || god (store st) challenger
  then Return tt
  else Raise (HTTPForbidden "Unauthorized"
                ("Action not allowed for " +:+ dquote +:+ challenger +:+ dquote)).
Proof.
  intros Ha Hu. unfold check_user_auth, self_or_team_admin. run.
  rewrite Ha, Hu. simpl.
  destruct (String.eqb user challenger); simpl; [reflexivity|].
  destruct (existsb _ _); simpl; [reflexivity|].
  unfold is_god. run. fold (god (store st) challenger).
  destruct (god (store st) challenger); reflexivity.
Qed.

Lemma check_team_auth_outcome team challenger st :
  context (request st) !! "app" = None ->
  context (request st) !! "user" = Some challenger ->
  fst (check_team_auth team st) =
  if team_admin (store st) team challenger || god (store st) challenger
  then Return tt
  else Raise (HTTPForbidden "Unauthorized"
                ("Action not allowed: " +:+ dquote +:+ challenger +:+ dquote
                 +:+ " is not an admin for " +:+ dquote +:+ team +:+ dquote)).
Proof.
  intros Ha Hu. unfold check_team_auth, team_admin. run.
  rewrite Ha, Hu. simpl.
  destruct (existsb _ _); simpl; [reflexivity|].
  unfold is_god. run. fold (god (store st) challenger).
  destruct (god (store st) challenger); reflexivity.
Qed.

Lemma check_calendar_auth_outcome team user challenger st :
  context (request st) !! "app" = None ->
  calendar_challenger user (request st) = Some challenger ->
  fst (check_calendar_auth team user st) =
  if team_member (store st) team challenger || god (store st) challenger
  then Return tt
  else Raise (HTTPForbidden "Unauthorized"
                ("Action not allowed: " +:+ dquote +:+ challenger +:+ dquote
                 +:+ " is not part of " +:+ dquote +:+ team +:+ dquote)).
Proof.
  intros Ha Hu. unfold check_calendar_auth, team_member. run.
  rewrite Ha.
  destruct user as [u|]; simpl in *.
  - inversion Hu; subst u.
    destruct (negb _); simpl; [reflexivity|].
    unfold is_god. run. fold (god (store st) challenger).
    destruct (god (store st) challenger); reflexivity.
  - rewrite Hu. simpl.
    destruct (negb _); simpl; [reflexivity|].
    unfold is_god. run. fold (god (store st) challenger).
    destruct (god (store st) challenger); reflexivity.
Qed.

Lemma check_calendar_auth_by_id_outcome team_id challenger st :
  context (request st) !! "app" = None ->
  context (request st) !! "user" = Some challenger ->
  fst (check_calendar_auth_by_id team_id st) =
  if team_member_by_id (store st) team_id challenger || god (store st) challenger
  then Return tt
  else Raise (HTTPForbidden "Unauthorized"
                ("Action not allowed: " +:+ dquote +:+ challenger +:+ dquote
                 +:+ " is not a team member")).
Proof.
  intros Ha Hu. unfold check_calendar_auth_by_id, team_member_by_id. run.
  rewrite Ha, Hu. simpl.
  destruct (negb _); simpl; [reflexivity|].
  unfold is_god. run. fold (god (store st) challenger).
  destruct (god (store st) challenger); reflexivity.
Qed.



(** C3: when the request context carries the 'app' key, each of
    check_user_auth, check_team_auth, check_calendar_auth and
    check_calendar_auth_by_id returns at once, whatever its other
    arguments: the result is a plain return and the state is exactly the
    state before the call, so no statement was executed on the store and
    no HTTPForbidden was raised. *)
Theorem app_identity_bypasses_every_check
    (st : State) (user team : string) (calendar_user : option string)
    (team_id : Z) :
  is_Some (context (request st) !! "app") ->
  check_user_auth user st = (Return tt, st)
  /\ check_team_auth team st = (Return tt, st)
  /\ check_calendar_auth team calendar_user st = (Return tt, st)
  /\ check_calendar_auth_by_id team_id st = (Return tt, st).
Proof.
  intros Happ. repeat split.
  - apply check_user_auth_app, Happ.
  - apply check_team_auth_app, Happ.
  - apply check_calendar_auth_app, Happ.
  - apply check_calendar_auth_by_id_app, Happ.
Qed.

Lemma app_identity_bypasses_every_check_witness :
  is_Some (context (Demo.app_request "svc-a") !! "app")
  /\ check_user_auth "alice" (Demo.state 0 (Demo.app_request "svc-a"))
     = (Return tt, Demo.state 0 (Demo.app_request "svc-a"))
  /\ check_team_auth "sre" (Demo.state 0 (Demo.app_request "svc-a"))
     = (Return tt, Demo.state 0 (Demo.app_request "svc-a"))
  /\ check_calendar_auth "sre" (Some "bob")
       (Demo.state 0 (Demo.app_request "svc-a"))
     = (Return tt, Demo.state 0 (Demo.app_request "svc-a"))
  /\ check_calendar_auth_by_id 10 (Demo.state 0 (Demo.app_request "svc-a"))
     = (Return tt, Demo.state 0 (Demo.app_request "svc-a")).
Proof.
  assert (H : is_Some (context (Demo.app_request "svc-a") !! "app")).
  { exists "svc-a". reflexivity. }
  split; [exact H|].
  apply (app_identity_bypasses_every_check
           (Demo.state 0 (Demo.app_request "svc-a"))
           "alice" "sre" (Some "bob") 10 H).
Defined.



(** ** Strings *)

Lemma canonical_path_truthy path qs :
  (if truthy qs then path +:+ "?" +:+ qs else path) = Spec.canonical_path path qs.
Proof.
  unfold Spec.canonical_path, truthy. destruct qs.
  - reflexivity.
  - case_decide; [discriminate|reflexivity].
Qed.

Lemma split1_absent sep s : occurs sep s = false -> split1 sep s = [s].
Proof.
  induction s as [|c s IH]; simpl; intros H; [reflexivity|].
  apply orb_false_iff in H. destruct H as [Hc Hs].
  rewrite Hc, (IH Hs). reflexivity.
Qed.

Lemma split1_first sep a d :
  occurs sep a = false -> split1 sep (a +:+ String sep d) = [a; d].
Proof.
  induction a as [|c a IH]; simpl; intros H.
  - rewrite Ascii.eqb_refl. reflexivity.
  - apply orb_false_iff in H. destruct H as [Hc Hs].
    rewrite Hc, (IH Hs). reflexivity.
Qed.

Lemma occurs_prefix_eq sep s1 s2 r1 r2 :
  occurs sep s1 = false -> occurs sep s2 = false ->
  s1 +:+ String sep r1 = s2 +:+ String sep r2 -> s1 = s2.
Proof.
  revert s2. induction s1 as [|c s1 IH]; intros [|c2 s2]; simpl; intros H1 H2 E.
  - reflexivity.
  - inversion E; subst. rewrite Ascii.eqb_refl in H2. discriminate.
  - inversion E; subst. rewrite Ascii.eqb_refl in H1. discriminate.
  - inversion E; subst.
    apply orb_false_iff in H1. apply orb_false_iff in H2.
    f_equal. apply IH; tauto.
Qed.

Lemma string_of_uint_no_space d :
  occurs " " (NilEmpty.string_of_uint d) = false.
Proof. induction d; simpl; auto. Qed.

Lemma str_of_int_no_space n : occurs " " (str_of_int n) = false.
Proof.
  unfold str_of_int, NilZero.string_of_int, NilZero.string_of_uint.
  destruct (Z.to_int n) as [d|d]; destruct d; simpl;
    auto using string_of_uint_no_space.
Qed.

Lemma str_of_int_inj n m : str_of_int n = str_of_int m -> n = m.
Proof.
  unfold str_of_int. intros H. apply DecimalZ.to_int_inj.
  assert (Hnil : forall z, Z.to_int z <> Decimal.Pos Decimal.Nil
                           /\ Z.to_int z <> Decimal.Neg Decimal.Nil).
  { intros [|p|p]; simpl; split; try discriminate;
      intros E; inversion E as [E']; apply (Unsigned.to_uint_nonnil p E'). }
  assert (Some (Z.to_int n) = Some (Z.to_int m)) as E.
  { rewrite <- (NilZero.isi (Z.to_int n)) by apply Hnil.
    rewrite <- (NilZero.isi (Z.to_int m)) by apply Hnil.
    rewrite H. reflexivity. }
  inversion E. reflexivity.
Qed.

(** The digest text determines the window it was made for. *)
Lemma format_text_window_inj w1 w2 m1 p1 b1 m2 p2 b2 :
  format_text w1 m1 p1 b1 = format_text w2 m2 p2 b2 -> w1 = w2.
Proof.
  unfold format_text. intros H. apply str_of_int_inj.
  eapply (occurs_prefix_eq " "%char); eauto using str_of_int_no_space.
Qed.

Lemma format_text_spec w m p b : format_text w m p b = Spec.digest_input w m p b.
Proof. reflexivity. Qed.

Lemma is_client_digest_valid_spec d key w m p b :
  is_client_digest_valid d key w m p b = true <-> d = Spec.sign key w m p b.
Proof.
  unfold is_client_digest_valid, equals, Spec.sign, hmac_digest.
  rewrite format_text_spec.
  destruct (String.eqb_spec d
    (Crypto.urlsafe_b64encode
       (Crypto.hmac_sha512 (Crypto.bytes_of_string key)
          (Crypto.bytes_of_string (Spec.digest_input w m p b))))); split;
    intros; congruence.
Qed.

(** ** Digest authentication *)

Arguments is_client_digest_valid : simpl never.
Arguments hmac_digest : simpl never.
Arguments Z.div : simpl never.
Arguments Z.sub : simpl never.

Lemma authenticate_application_no_prefix auth_token st :
  startswith "hmac " auth_token = false ->
  authenticate_application auth_token st = (Raise invalid_digest_format, st).
Proof.
  intros H. unfold authenticate_application. rewrite H. reflexivity.
Qed.

Lemma authenticate_application_run auth_token st path qs body :
  startswith "hmac " auth_token = true ->
  request_inputs st path qs body ->
  authenticate_application auth_token st =
  try_except
    (authenticate_application_try auth_token (method (request st))
       (Spec.canonical_path path qs) body)
    caught_by_digest_handler (raise wrong_digest) st.
Proof.
  intros Hp (Hpath & Hqs & Hbody). unfold authenticate_application.
  rewrite Hp. simpl.
  rewrite (bind_return _ _ st (request st) st) by reflexivity.
  rewrite (bind_return _ _ st path st) by (apply getitem_some, Hpath).
  rewrite (bind_return _ _ st qs st) by (apply getitem_some, Hqs).
  rewrite (bind_return _ _ st body st) by (apply getitem_some, Hbody).
  rewrite canonical_path_truthy. reflexivity.
Qed.

Lemma try_no_separator auth_token m p b st :
  occurs ":" (slice_from 5 auth_token) = false ->
  authenticate_application_try auth_token m p b st = (Raise ValueError, st).
Proof.
  intros H. unfold authenticate_application_try.
  rewrite (split1_absent _ _ H). reflexivity.
Qed.

Lemma try_cached auth_token app digest key m p b st :
  split1 ":" (slice_from 5 auth_token) = [app; digest] ->
  app_key_cache st !! app = Some key ->
  authenticate_application_try auth_token m p b st =
  verdict app digest key m p b st.
Proof.
  intros Hs Hc. unfold authenticate_application_try, verdict. rewrite Hs.
  run. rewrite Hc. simpl. rewrite Hc.
  destruct (is_client_digest_valid digest key (clock st / 5) m p b);
    [reflexivity|].
  destruct (is_client_digest_valid digest key (clock st / 5 - 1) m p b);
    reflexivity.
Qed.

Lemma try_miss_found auth_token app digest key rest m p b st :
  split1 ":" (slice_from 5 auth_token) = [app; digest] ->
  app_key_cache st !! app = None ->
  Sql.select_application_key (store st) app = key :: rest ->
  authenticate_application_try auth_token m p b st =
  verdict app digest key m p b
    (with_cache (<[app:=key]> (app_key_cache st))
       (with_log (SelectApplicationKey app :: sql_log st) st)).
Proof.
  intros Hs Hc Hr. unfold authenticate_application_try, verdict. rewrite Hs.
  run. rewrite Hc. simpl. rewrite Hr. simpl.
  rewrite lookup_insert_eq. simpl.
  destruct (is_client_digest_valid digest key (clock st / 5) m p b);
    [reflexivity|].
  destruct (is_client_digest_valid digest key (clock st / 5 - 1) m p b);
    reflexivity.
Qed.

Lemma try_miss_absent auth_token app digest m p b st :
  split1 ":" (slice_from 5 auth_token) = [app; digest] ->
  app_key_cache st !! app = None ->
  Sql.select_application_key (store st) app = [] ->
  authenticate_application_try auth_token m p b st =
  (Raise application_not_found,
   with_log (SelectApplicationKey app :: sql_log st) st).
Proof.
  intros Hs Hc Hr. unfold authenticate_application_try. rewrite Hs.
  run. rewrite Hc. simpl. rewrite Hr. reflexivity.
Qed.

(** Neither outcome of the verdict is caught by the handler. *)
Lemma try_except_verdict app digest key m p b st :
  try_except (verdict app digest key m p b) caught_by_digest_handler
    (raise wrong_digest) st = verdict app digest key m p b st.
Proof.
  unfold try_except, verdict.
  destruct (_ || _); reflexivity.
Qed.

Lemma signature_header_parts app digest :
  occurs ":" app = false ->
  startswith "hmac " (Spec.signature_header app digest) = true
  /\ split1 ":" (slice_from 5 (Spec.signature_header app digest)) = [app; digest].
Proof.
  intros H. split; [reflexivity|].
  unfold Spec.signature_header. simpl. apply split1_first, H.
Qed.

(** What a well-formed header for a resolvable application comes to:
    the verdict on the resolved key, in the state the resolution leaves. *)
Lemma authenticate_application_resolved auth_token app digest key path qs body st :
  startswith "hmac " auth_token = true ->
  split1 ":" (slice_from 5 auth_token) = [app; digest] ->
  request_inputs st path qs body ->
  resolves_key st app key ->
  exists st',
    authenticate_application auth_token st =
    verdict app digest key (method (request st))
      (Spec.canonical_path path qs) body st'
    /\ clock st' = clock st /\ request st' = request st.
Proof.
  intros Hp Hs Hin Hk.
  rewrite (authenticate_application_run _ _ _ _ _ Hp Hin).
  destruct Hk as [Hc | (Hc & rest & Hr)].
  - exists st. split; [|auto].
    unfold try_except. rewrite (try_cached _ _ _ _ _ _ _ _ Hs Hc).
    apply try_except_verdict.
  - eexists. split; [|split].
    + unfold try_except. rewrite (try_miss_found _ _ _ _ _ _ _ _ _ Hs Hc Hr).
      apply try_except_verdict.
    + reflexivity.
    + reflexivity.
Qed.

Lemma verdict_accepts app digest key m p b st :
  is_client_digest_valid digest key (clock st / 5) m p b = true
  \/ is_client_digest_valid digest key (clock st / 5 - 1) m p b = true ->
  accepted_as app (verdict app digest key m p b st).
Proof.
  intros H. unfold verdict, accepted_as.
  assert ((is_client_digest_valid digest key (clock st / 5) m p b
           || is_client_digest_valid digest key (clock st / 5 - 1) m p b) = true)
    as -> by (apply orb_true_iff, H).
  simpl. split; [reflexivity|]. apply lookup_insert_eq.
Qed.

Lemma verdict_rejects app digest key m p b st :
  is_client_digest_valid digest key (clock st / 5) m p b = false ->
  is_client_digest_valid digest key (clock st / 5 - 1) m p b = false ->
  verdict app digest key m p b st = (Raise wrong_digest, st).
Proof. intros H1 H2. unfold verdict. rewrite H1, H2. reflexivity. Qed.

(** A digest made for window [w] is valid for another window only by a
    collision of the keyed hash. *)
Lemma other_window_invalid key w w' m p b :
  w <> w' ->
  ~ collision key (Spec.digest_input w m p b) (Spec.digest_input w' m p b) ->
  is_client_digest_valid (Spec.sign key w m p b) key w' m p b = false.
Proof.
  intros Hw Hc.
  destruct (is_client_digest_valid _ key w' m p b) eqn:E; [|reflexivity].
  apply is_client_digest_valid_spec in E. exfalso. apply Hc. split.
  - intros Ht. apply Hw. eapply format_text_window_inj. exact Ht.
  - exact E.
Qed.

(** C1 (amended): for an application whose name contains no ':' and
    whose key the credential store resolves to K, the header
    "hmac <app>:<digest>" with the digest
    base64url(HMAC-SHA512(K, "<w> <method> <canonicalPath> <body>")) made
    at window w = floor(signingTime/5) is accepted by
    authenticate_application, which marks the request context with the
    application name, whenever the server's window floor(now/5) is w or
    w+1; and it is rejected with Unauthorized "Wrong digest" whenever the
    server's window is w+2 or later, unless HMAC-SHA512 under K collides
    on the text of window w and the text of one of the two windows the
    server checks. *)
Theorem digest_valid_for_two_windows
    (st : State) (app key path qs body : string) (signing_time : Z) :
  occurs ":" app = false ->
  resolves_key st app key ->
  request_inputs st path qs body ->
  let m := method (request st) in
  let cpath := Spec.canonical_path path qs in
  let w := Spec.window signing_time in
  let now := Spec.window (clock st) in
  let header := Spec.signature_header app (Spec.sign key w m cpath body) in
  (now = w \/ now = w + 1 ->
   accepted_as app (authenticate_application header st))
  /\ (w + 2 <= now ->
      ~ collision key (Spec.digest_input w m cpath body)
          (Spec.digest_input now m cpath body) ->
      ~ collision key (Spec.digest_input w m cpath body)
          (Spec.digest_input (now - 1) m cpath body) ->
      fst (authenticate_application header st) = Raise wrong_digest).
Proof.
  intros Hcolon Hkey Hin m cpath w now header.
  destruct (signature_header_parts app (Spec.sign key w m cpath body) Hcolon)
    as [Hp Hs].
  destruct (authenticate_application_resolved _ _ _ _ _ _ _ _ Hp Hs Hin Hkey)
    as (st' & Hrun & Hclock & Hreq).
  fold m cpath in Hrun. fold header in Hrun. rewrite Hrun.
  unfold now, Spec.window in *. rewrite <- Hclock. split.
  - intros Hw. apply verdict_accepts.
    destruct Hw as [Hw | Hw]; [left | right];
      apply is_client_digest_valid_spec; f_equal; lia.
  - intros Hlate Hc1 Hc2. rewrite verdict_rejects; [reflexivity| |].
    + apply other_window_invalid; [lia | exact Hc1].
    + apply other_window_invalid; [lia | exact Hc2].
Qed.

Lemma digest_valid_for_two_windows_witness :
  accepted_as "svc-a"
    (authenticate_application Demo.svc_a_header
       (Demo.state (Demo.signed_at + 4) Demo.plain_request))
  /\ accepted_as "svc-a"
       (authenticate_application Demo.svc_a_header
          (Demo.state (Demo.signed_at + 9) Demo.plain_request))
  /\ fst (authenticate_application Demo.svc_a_header
            (Demo.state (Demo.signed_at + 11) Demo.plain_request))
     = Raise wrong_digest.
Proof.
  assert (Hk : forall t, resolves_key (Demo.state t Demo.plain_request)
                           "svc-a" "K").
  { intros t. right. split; [reflexivity|]. exists []. reflexivity. }
  assert (Hi : forall t, request_inputs (Demo.state t Demo.plain_request)
                           "/widgets/42" EmptyString EmptyString).
  { intros t. repeat split. }
  split; [|split].
  - apply (digest_valid_for_two_windows _ "svc-a" "K" "/widgets/42"
             EmptyString EmptyString Demo.signed_at eq_refl (Hk _) (Hi _)).
    left. reflexivity.
  - apply (digest_valid_for_two_windows _ "svc-a" "K" "/widgets/42"
             EmptyString EmptyString Demo.signed_at eq_refl (Hk _) (Hi _)).
    right. reflexivity.
  - apply (digest_valid_for_two_windows _ "svc-a" "K" "/widgets/42"
             EmptyString EmptyString Demo.signed_at eq_refl (Hk _) (Hi _)).
    + vm_compute. discriminate.
    + intros [_ H]. vm_compute in H. discriminate.
    + intros [_ H]. vm_compute in H. discriminate.
Defined.

(** C1, as stated, fails: the application "team:svc" is registered with
    key "K2" and the digest is made for the server's current window, yet
    the header "hmac team:svc:<digest>" is split at its first ':' and the
    lookup of "team" ends in "Application not found". *)
Lemma colon_in_application_name_rejected :
  resolves_key (Demo.state Demo.signed_at Demo.plain_request)
    "team:svc" "K2"
  /\ request_inputs (Demo.state Demo.signed_at Demo.plain_request)
       "/widgets/42" EmptyString EmptyString
  /\ Spec.window (clock (Demo.state Demo.signed_at Demo.plain_request))
     = Spec.window Demo.signed_at
  /\ fst (authenticate_application Demo.team_svc_header
            (Demo.state Demo.signed_at Demo.plain_request))
     = Raise application_not_found
  /\ ~ accepted_as "team:svc"
         (authenticate_application Demo.team_svc_header
            (Demo.state Demo.signed_at Demo.plain_request)).
Proof.
  assert (E : fst (authenticate_application Demo.team_svc_header
                     (Demo.state Demo.signed_at Demo.plain_request))
              = Raise application_not_found) by (vm_compute; reflexivity).
  split; [|split; [|split; [|split]]].
  - right. split; [reflexivity|]. exists []. reflexivity.
  - repeat split.
  - reflexivity.
  - exact E.
  - intros [H _]. rewrite E in H. discriminate.
Qed.

(** C2 (amended): a header that does not start with "hmac " fails with
    Unauthorized "Invalid digest format" and leaves the state untouched;
    a header that starts with "hmac " but has no ':' after the prefix
    fails, on a request that has its path, query string and body, with
    Unauthorized "Wrong digest", the error of the handler of the [try]
    block, again with the state untouched. *)
Theorem malformed_header_errors (st : State) (auth_token : string) :
  (startswith "hmac " auth_token = false ->
   authenticate_application auth_token st = (Raise invalid_digest_format, st))
  /\ (startswith "hmac " auth_token = true ->
      occurs ":" (slice_from 5 auth_token) = false ->
      forall path qs body, request_inputs st path qs body ->
      authenticate_application auth_token st = (Raise wrong_digest, st)).
Proof.
  split.
  - apply authenticate_application_no_prefix.
  - intros Hp Hsep path qs body Hin.
    rewrite (authenticate_application_run _ _ _ _ _ Hp Hin).
    unfold try_except. rewrite (try_no_separator _ _ _ _ _ Hsep). reflexivity.
Qed.

Lemma malformed_header_errors_witness :
  authenticate_application "svc-a:digest"
    (Demo.state Demo.signed_at Demo.plain_request)
  = (Raise invalid_digest_format,
     Demo.state Demo.signed_at Demo.plain_request)
  /\ authenticate_application "hmac svc-a"
       (Demo.state Demo.signed_at Demo.plain_request)
     = (Raise wrong_digest,
        Demo.state Demo.signed_at Demo.plain_request).
Proof.
  split.
  - apply (malformed_header_errors
             (Demo.state Demo.signed_at Demo.plain_request)
             "svc-a:digest"). reflexivity.
  - apply (malformed_header_errors
             (Demo.state Demo.signed_at Demo.plain_request)
             "hmac svc-a" ) with (path := "/widgets/42")
             (qs := EmptyString) (body := EmptyString);
      [reflexivity | reflexivity | repeat split].
Defined.

(** C2, as stated, fails: the header "hmac svc-a" has the prefix and no
    ':' separator, and the error is "Wrong digest", not "Invalid digest
    format". *)
Lemma missing_separator_is_wrong_digest :
  startswith "hmac " "hmac svc-a" = true
  /\ occurs ":" (slice_from 5 "hmac svc-a") = false
  /\ fst (authenticate_application "hmac svc-a"
            (Demo.state Demo.signed_at Demo.plain_request))
     = Raise (HTTPUnauthorized "Authentication failure" "Wrong digest"
                EmptyString)
  /\ fst (authenticate_application "hmac svc-a"
            (Demo.state Demo.signed_at Demo.plain_request))
     <> Raise (HTTPUnauthorized "Authentication failure"
                 "Invalid digest format" EmptyString).
Proof.
  repeat split. intros H. vm_compute in H. discriminate.
Qed.

(** ** Session authentication *)

Lemma authenticate_user_no_user st session :
  beaker_session (request st) = Some session ->
  session !! "user" = None ->
  _authenticate_user st = (Raise must_be_logged_in, st).
Proof.
  intros Hs Hu. unfold _authenticate_user. run. rewrite Hs. simpl.
  rewrite Hu. reflexivity.
Qed.

Lemma authenticate_user_no_id st session user :
  beaker_session (request st) = Some session ->
  session !! "user" = Some user ->
  session !! "_id" = None ->
  _authenticate_user st = (Raise must_be_logged_in, with_user user st).
Proof.
  intros Hs Hu Hi. unfold _authenticate_user. run. rewrite Hs. simpl.
  rewrite Hu. simpl. rewrite Hi. reflexivity.
Qed.

(** With a user and a session id, the outcome is decided by the rows of
    the token query and by the header. *)
Lemma authenticate_user_lookup st session user sid :
  beaker_session (request st) = Some session ->
  session !! "user" = Some user ->
  session !! "_id" = Some sid ->
  fst (_authenticate_user st) =
  match Sql.select_csrf_token (store st) sid with
  | [token] =>
      if bool_decide (headers (request st) !! "X-CSRF-TOKEN" = token)
      then Return tt else Raise csrf_validation_failed
  | _ => Raise csrf_token_missing
  end
  /\ request (snd (_authenticate_user st)) = request (with_user user st)
  /\ sql_log (snd (_authenticate_user st)) = SelectCsrfToken sid :: sql_log st.
Proof.
  intros Hs Hu Hi. unfold _authenticate_user. run. rewrite Hs. simpl.
  rewrite Hu. simpl. rewrite Hi. simpl.
  destruct (Sql.select_csrf_token (store st) sid) as [|token [|t2 l]]; simpl;
    auto.
  destruct (bool_decide _); simpl; auto.
Qed.

(** C5 (amended): session authentication fails with Unauthorized "User
    must be logged in" when the session has no user; with a user and a
    session id, it fails with Unauthorized "CSRF token missing" when the
    store does not hold exactly one token for the session id; with exactly
    one stored token it fails with Unauthorized "CSRF validation failed"
    whenever what req.get_header('X-CSRF-TOKEN') gives differs from the
    stored token: a value that differs from the token in one character
    is rejected for every stored token, an absent header for every
    stored token that is not NULL, and an empty value for every stored
    token that is not the empty string; and when the header equals the
    stored token it returns with the request's user set to the session's
    user. *)
Theorem session_authentication_outcomes
    (st : State) (session : gmap string string) :
  beaker_session (request st) = Some session ->
  (session !! "user" = None ->
   fst (_authenticate_user st) = Raise must_be_logged_in)
  /\ (forall user sid,
        session !! "user" = Some user ->
        session !! "_id" = Some sid ->
        (length (Sql.select_csrf_token (store st) sid) <> 1%nat ->
         fst (_authenticate_user st) = Raise csrf_token_missing)
        /\ (forall token : option string,
              Sql.select_csrf_token (store st) sid = [token] ->
              (headers (request st) !! "X-CSRF-TOKEN" = None ->
               token <> None ->
               fst (_authenticate_user st) = Raise csrf_validation_failed)
              /\ (forall value,
                    headers (request st) !! "X-CSRF-TOKEN" = Some value ->
                    token <> Some value ->
                    fst (_authenticate_user st) = Raise csrf_validation_failed)
              /\ (headers (request st) !! "X-CSRF-TOKEN" = Some EmptyString ->
                  token <> Some EmptyString ->
                  fst (_authenticate_user st) = Raise csrf_validation_failed)
              /\ (headers (request st) !! "X-CSRF-TOKEN" = token ->
                  fst (_authenticate_user st) = Return tt
                  /\ context (request (snd (_authenticate_user st))) !! "user"
                     = Some user))).
Proof.
  intros Hs. split.
  - intros Hu. rewrite (authenticate_user_no_user _ _ Hs Hu). reflexivity.
  - intros user sid Hu Hi.
    destruct (authenticate_user_lookup st session user sid Hs Hu Hi)
      as (Hr & Hreq & _).
    split.
    + intros Hlen. rewrite Hr.
      destruct (Sql.select_csrf_token (store st) sid) as [|t [|t2 l]];
        simpl in *; congruence.
    + intros token Ht. rewrite Ht in Hr.
      assert (Hne : forall h, headers (request st) !! "X-CSRF-TOKEN" = h ->
                h <> token ->
                fst (_authenticate_user st) = Raise csrf_validation_failed).
      { intros h Hh Hd. rewrite Hr, Hh.
        rewrite bool_decide_eq_false_2 by exact Hd. reflexivity. }
      split; [|split; [|split]].
      * intros Hh Hd. apply (Hne None Hh). congruence.
      * intros value Hh Hd. apply (Hne (Some value) Hh). congruence.
      * intros Hh Hd. apply (Hne (Some EmptyString) Hh). congruence.
      * intros Hh. split.
        -- rewrite Hr, Hh. rewrite bool_decide_eq_true_2 by reflexivity.
           reflexivity.
        -- rewrite Hreq. simpl. apply lookup_insert_eq.
Qed.

Lemma session_authentication_outcomes_witness :
  fst (_authenticate_user
         (Demo.state 0 (Demo.session_request "s1" (Some "tok"))))
  = Return tt
  /\ fst (_authenticate_user
            (Demo.state 0 (Demo.session_request "s1" (Some "toc"))))
     = Raise csrf_validation_failed
  /\ fst (_authenticate_user
            (Demo.state 0 (Demo.session_request "s1" None)))
     = Raise csrf_validation_failed
  /\ fst (_authenticate_user
            (Demo.state 0 (Demo.session_request "s1" (Some EmptyString))))
     = Raise csrf_validation_failed
  /\ fst (_authenticate_user
            (Demo.state 0 (Demo.session_request "s3" (Some "tok"))))
     = Raise csrf_validation_failed
  /\ fst (_authenticate_user
            (Demo.state 0 (Demo.session_request "s9" (Some "tok"))))
     = Raise csrf_token_missing.
Proof.
  pose proof (fun sid csrf =>
    proj2 (session_authentication_outcomes
             (Demo.state 0 (Demo.session_request sid csrf))
             {[ "user" := "alice"; "_id" := sid ]} eq_refl)
      "alice" sid eq_refl eq_refl) as H.
  split; [|split; [|split; [|split; [|split]]]].
  - destruct (H "s1" (Some "tok")) as [_ H1].
    destruct (H1 (Some "tok") eq_refl) as (_ & _ & _ & H2).
    apply H2. reflexivity.
  - destruct (H "s1" (Some "toc")) as [_ H1].
    destruct (H1 (Some "tok") eq_refl) as (_ & H2 & _).
    apply (H2 "toc"); [reflexivity | discriminate].
  - destruct (H "s1" None) as [_ H1].
    destruct (H1 (Some "tok") eq_refl) as (H2 & _).
    apply H2; [reflexivity | discriminate].
  - destruct (H "s1" (Some EmptyString)) as [_ H1].
    destruct (H1 (Some "tok") eq_refl) as (_ & _ & H2 & _).
    apply H2; [reflexivity | discriminate].
  - destruct (H "s3" (Some "tok")) as [_ H1].
    destruct (H1 None eq_refl) as (_ & H2 & _).
    apply (H2 "tok"); [reflexivity | discriminate].
  - destruct (H "s9" (Some "tok")) as [H1 _].
    apply H1. vm_compute. discriminate.
Defined.

(** C5, as stated, fails, in two ways.  Session "s2" has the empty
    string as its one stored token, and a request of that session with an
    empty X-CSRF-TOKEN header is authenticated.  Session "s3" has a NULL
    stored token, and a request of that session without any X-CSRF-TOKEN
    header is authenticated: [None != None] is false. *)
Lemma header_matching_degenerate_token_is_accepted :
  Sql.select_csrf_token Demo.db "s2" = [Some EmptyString]
  /\ headers (Demo.session_request "s2" (Some EmptyString)) !! "X-CSRF-TOKEN"
     = Some EmptyString
  /\ fst (_authenticate_user
            (Demo.state 0 (Demo.session_request "s2" (Some EmptyString))))
     = Return tt
  /\ fst (_authenticate_user
            (Demo.state 0 (Demo.session_request "s2" (Some EmptyString))))
     <> Raise csrf_validation_failed
  /\ Sql.select_csrf_token Demo.db "s3" = [None]
  /\ headers (Demo.session_request "s3" None) !! "X-CSRF-TOKEN" = None
  /\ fst (_authenticate_user (Demo.state 0 (Demo.session_request "s3" None)))
     = Return tt
  /\ fst (_authenticate_user (Demo.state 0 (Demo.session_request "s3" None)))
     <> Raise csrf_validation_failed.
Proof.
  repeat split; intros H; vm_compute in H; discriminate.
Qed.

(** C10: a session that has a user but no '_id' key fails with
    Unauthorized "User must be logged in", the error of a session without
    a user, and not with a CSRF error; no token lookup is made; and
    whatever the session holds, no KeyError leaves the function. *)
Theorem session_key_errors_mean_not_logged_in
    (st : State) (session : gmap string string) :
  beaker_session (request st) = Some session ->
  (forall user, session !! "user" = Some user -> session !! "_id" = None ->
     fst (_authenticate_user st) = Raise must_be_logged_in
     /\ sql_log (snd (_authenticate_user st)) = sql_log st)
  /\ (session !! "user" = None ->
      fst (_authenticate_user st) = Raise must_be_logged_in
      /\ sql_log (snd (_authenticate_user st)) = sql_log st)
  /\ (forall key, fst (_authenticate_user st) <> Raise (KeyError key)).
Proof.
  intros Hs. split; [|split].
  - intros user Hu Hi. rewrite (authenticate_user_no_id _ _ _ Hs Hu Hi).
    split; reflexivity.
  - intros Hu. rewrite (authenticate_user_no_user _ _ Hs Hu).
    split; reflexivity.
  - intros key.
    destruct (session !! "user") as [user|] eqn:Hu.
    + destruct (session !! "_id") as [sid|] eqn:Hi.
      * destruct (authenticate_user_lookup st session user sid Hs Hu Hi)
          as (Hr & _). rewrite Hr.
        destruct (Sql.select_csrf_token (store st) sid) as [|t [|t2 l]];
          try discriminate.
        destruct (bool_decide _); discriminate.
      * rewrite (authenticate_user_no_id _ _ _ Hs Hu Hi). discriminate.
    + rewrite (authenticate_user_no_user _ _ Hs Hu). discriminate.
Qed.

Lemma session_key_errors_mean_not_logged_in_witness :
  fst (_authenticate_user
         (Demo.state 0
            (Demo.req (Some {[ "user" := "alice" ]})
               {[ "X-CSRF-TOKEN" := "tok" ]} ∅)))
  = Raise must_be_logged_in
  /\ sql_log (snd (_authenticate_user
         (Demo.state 0
            (Demo.req (Some {[ "user" := "alice" ]})
               {[ "X-CSRF-TOKEN" := "tok" ]} ∅)))) = [].
Proof.
  apply (proj1 (session_key_errors_mean_not_logged_in
           (Demo.state 0
              (Demo.req (Some {[ "user" := "alice" ]})
                 {[ "X-CSRF-TOKEN" := "tok" ]} ∅))
           {[ "user" := "alice" ]} eq_refl) "alice"); reflexivity.
Defined.

(** ** The login_required wrapper *)

(** C9: on a request whose AUTHORIZATION header is present and empty,
    the login_required wrapper runs session authentication (the function
    bound to authenticate_user) and then the handler; it runs
    authenticate_application, on the header value, only when that value
    is not empty; an absent header also goes to session authentication. *)
Theorem empty_authorization_goes_to_session
    {R : Type} (authenticate_user : Py unit) (function : list Arg -> Py R)
    (args : list Arg) (st : State) :
  is_Some (first_request 0 args) ->
  (headers (request st) !! "AUTHORIZATION" = Some EmptyString ->
   login_required authenticate_user function args st
   = (authenticate_user ;;; function args) st)
  /\ (headers (request st) !! "AUTHORIZATION" = None ->
      login_required authenticate_user function args st
      = (authenticate_user ;;; function args) st)
  /\ (forall token,
        headers (request st) !! "AUTHORIZATION" = Some token ->
        token <> EmptyString ->
        login_required authenticate_user function args st
        = (authenticate_application token ;;; function args) st).
Proof.
  intros [i Hi]. unfold login_required. rewrite Hi.
  split; [|split].
  - intros Hh. unfold bind at 1 2. simpl. unfold get_header, ret. simpl.
    rewrite Hh. reflexivity.
  - intros Hh. unfold bind at 1 2. simpl. unfold get_header, ret. simpl.
    rewrite Hh. reflexivity.
  - intros token Hh Hne. unfold bind at 1 2. simpl. unfold get_header, ret.
    simpl. rewrite Hh. destruct token; [congruence|]. reflexivity.
Qed.

Lemma empty_authorization_goes_to_session_witness :
  login_required _authenticate_user (fun _ => ret tt)
    [ArgOther "self"; ArgRequest; ArgOther "resp"]
    (Demo.state 0
       (Demo.req (Some {[ "user" := "alice"; "_id" := "s1" ]})
          {[ "AUTHORIZATION" := EmptyString; "X-CSRF-TOKEN" := "tok" ]} ∅))
  = (_authenticate_user ;;; ret tt)
      (Demo.state 0
         (Demo.req (Some {[ "user" := "alice"; "_id" := "s1" ]})
            {[ "AUTHORIZATION" := EmptyString; "X-CSRF-TOKEN" := "tok" ]} ∅)).
Proof.
  assert (Hreq : is_Some (first_request 0
                            [ArgOther "self"; ArgRequest; ArgOther "resp"])).
  { exists 1%nat. reflexivity. }
  destruct (empty_authorization_goes_to_session _authenticate_user
              (fun _ => ret tt) [ArgOther "self"; ArgRequest; ArgOther "resp"]
              (Demo.state 0
                 (Demo.req (Some {[ "user" := "alice"; "_id" := "s1" ]})
                    {[ "AUTHORIZATION" := EmptyString;
                       "X-CSRF-TOKEN" := "tok" ]} ∅)) Hreq) as (H & _).
  apply H. reflexivity.
Defined.

(** ** Every way a call of authenticate_application can go *)

Lemma split1_cases sep s :
  occurs sep s = false \/ exists a d, split1 sep s = [a; d].
Proof.
  induction s as [|c s IH]; simpl; [left; reflexivity|].
  destruct (Ascii.eqb c sep) eqn:E; simpl.
  - right. eauto.
  - destruct IH as [H | (a & d & H)]; [left; exact H|].
    right. rewrite H. eauto.
Qed.

Lemma authenticate_application_missing_input auth_token st :
  startswith "hmac " auth_token = true ->
  (exists path qs body, request_inputs st path qs body)
  \/ (exists key, authenticate_application auth_token st = (Raise (KeyError key), st)).
Proof.
  intros Hp. unfold request_inputs, authenticate_application. rewrite Hp. run.
  destruct (env (request st) !! "PATH_INFO") as [path|]; [|right; eauto].
  destruct (env (request st) !! "QUERY_STRING") as [qs|]; [|right; eauto].
  destruct (context (request st) !! "body") as [body|]; [|right; eauto].
  left. eauto 10.
Qed.

Lemma authenticate_application_cases auth_token st :
  Run auth_token st (authenticate_application auth_token st).
Proof.
  destruct (startswith "hmac " auth_token) eqn:Hp.
  2:{ rewrite (authenticate_application_no_prefix _ _ Hp).
      apply RunNoPrefix, Hp. }
  destruct (authenticate_application_missing_input auth_token st Hp)
    as [(path & qs & body & Hin) | (key & Hk)].
  2:{ rewrite Hk. apply RunMissingInput, Hp. }
  rewrite (authenticate_application_run _ _ _ _ _ Hp Hin). unfold try_except.
  destruct (split1_cases ":" (slice_from 5 auth_token)) as [Hs | (a & d & Hs)].
  - rewrite (try_no_separator _ _ _ _ _ Hs). simpl.
    eapply RunNoSeparator; eauto.
  - destruct (app_key_cache st !! a) as [k|] eqn:Ec.
    + rewrite (try_cached _ _ _ _ _ _ _ _ Hs Ec).
      fold (try_except (verdict a d k (method (request st))
                          (Spec.canonical_path path qs) body)
              caught_by_digest_handler (raise wrong_digest) st).
      rewrite try_except_verdict. eapply RunCached; eauto.
    + destruct (Sql.select_application_key (store st) a) as [|k rest] eqn:Er.
      * rewrite (try_miss_absent _ _ _ _ _ _ _ Hs Ec Er). simpl.
        eapply RunLookupNotFound; eauto.
      * rewrite (try_miss_found _ _ _ _ _ _ _ _ _ Hs Ec Er).
        fold (after_lookup a k st).
        fold (try_except (verdict a d k (method (request st))
                            (Spec.canonical_path path qs) body)
                caught_by_digest_handler (raise wrong_digest)
                (after_lookup a k st)).
        rewrite try_except_verdict. eapply RunLookupFound; eauto.
Qed.

Lemma verdict_fst app d k m p b st :
  fst (verdict app d k m p b st) =
  if is_client_digest_valid d k (clock st / 5) m p b
     || is_client_digest_valid d k (clock st / 5 - 1) m p b
  then Return tt else Raise wrong_digest.
Proof. unfold verdict. destruct (_ || _); reflexivity. Qed.

Lemma verdict_frame app d k m p b st :
  app_key_cache (snd (verdict app d k m p b st)) = app_key_cache st
  /\ sql_log (snd (verdict app d k m p b st)) = sql_log st.
Proof. unfold verdict. destruct (_ || _); split; reflexivity. Qed.

Lemma authenticate_application_outcome auth_token st path qs body :
  request_inputs st path qs body ->
  fst (authenticate_application auth_token st) =
  digest_outcome auth_token (app_key_cache st) (store st) (clock st)
    (method (request st)) (Spec.canonical_path path qs) body.
Proof.
  intros Hin. unfold digest_outcome.
  destruct (startswith "hmac " auth_token) eqn:Hp; cbn [negb].
  2:{ rewrite (authenticate_application_no_prefix _ _ Hp). reflexivity. }
  rewrite (authenticate_application_run _ _ _ _ _ Hp Hin). unfold try_except.
  destruct (split1_cases ":" (slice_from 5 auth_token)) as [Hs | (a & d & Hs)].
  - rewrite (try_no_separator _ _ _ _ _ Hs), (split1_absent _ _ Hs).
    reflexivity.
  - rewrite Hs. destruct (app_key_cache st !! a) as [k|] eqn:Ec.
    + rewrite (try_cached _ _ _ _ _ _ _ _ Hs Ec).
      fold (try_except (verdict a d k (method (request st))
                          (Spec.canonical_path path qs) body)
              caught_by_digest_handler (raise wrong_digest) st).
      rewrite try_except_verdict. apply verdict_fst.
    + destruct (Sql.select_application_key (store st) a) as [|k rest] eqn:Er.
      * rewrite (try_miss_absent _ _ _ _ _ _ _ Hs Ec Er). reflexivity.
      * rewrite (try_miss_found _ _ _ _ _ _ _ _ _ Hs Ec Er).
        fold (after_lookup a k st).
        fold (try_except (verdict a d k (method (request st))
                            (Spec.canonical_path path qs) body)
                caught_by_digest_handler (raise wrong_digest)
                (after_lookup a k st)).
        rewrite try_except_verdict, verdict_fst. reflexivity.
Qed.

(** C6: the digest is computed over "<window> <method> <canonicalPath>
    <body>", single spaces between the parts, where canonicalPath is the
    path when the query string is empty and path + "?" + queryString
    otherwise: a well-formed header of a resolvable application is
    accepted exactly when its digest is the one signed over that text for
    the server's window or the one before.  The decision depends on the
    request only through the method, the canonical path and the body:
    two requests that agree on these get the same result for the same
    header, cache, store and clock. *)
Theorem digest_text_is_canonical
    (st : State) (auth_token app digest key path qs body : string) :
  request_inputs st path qs body ->
  startswith "hmac " auth_token = true ->
  split1 ":" (slice_from 5 auth_token) = [app; digest] ->
  resolves_key st app key ->
  let m := method (request st) in
  let cpath := Spec.canonical_path path qs in
  let w := Spec.window (clock st) in
  (accepted_as app (authenticate_application auth_token st) <->
     digest = Spec.sign key w m cpath body
     \/ digest = Spec.sign key (w - 1) m cpath body)
  /\ (digest <> Spec.sign key w m cpath body ->
      digest <> Spec.sign key (w - 1) m cpath body ->
      fst (authenticate_application auth_token st) = Raise wrong_digest)
  /\ (forall (other_token : string) (st2 : State) (path2 qs2 : string),
        app_key_cache st2 = app_key_cache st ->
        store st2 = store st ->
        clock st2 = clock st ->
        method (request st2) = m ->
        request_inputs st2 path2 qs2 body ->
        Spec.canonical_path path2 qs2 = cpath ->
        fst (authenticate_application other_token st2)
        = fst (authenticate_application other_token st)).
Proof.
  intros Hin Hp Hs Hk m cpath w.
  destruct (authenticate_application_resolved _ _ _ _ _ _ _ _ Hp Hs Hin Hk)
    as (st' & Hrun & Hclock & Hreq).
  fold m cpath in Hrun.
  assert (Hv : forall v,
    is_client_digest_valid digest key v m cpath body = true <->
    digest = Spec.sign key v m cpath body)
    by (intros v; apply is_client_digest_valid_spec).
  split; [|split].
  - rewrite Hrun. split.
    + intros [Hr _]. rewrite verdict_fst in Hr. rewrite Hclock in Hr.
      destruct (is_client_digest_valid digest key (clock st / 5) m cpath body)
        eqn:E1.
      * left. apply Hv, E1.
      * destruct (is_client_digest_valid digest key (clock st / 5 - 1) m cpath body)
          eqn:E2; [|discriminate].
        right. apply Hv, E2.
    + intros H. apply verdict_accepts. rewrite Hclock.
      destruct H as [H | H]; [left | right]; apply Hv, H.
  - intros H1 H2. rewrite Hrun, verdict_fst, Hclock.
    destruct (is_client_digest_valid digest key (clock st / 5) m cpath body)
      eqn:E1; [apply Hv in E1; contradiction|].
    destruct (is_client_digest_valid digest key (clock st / 5 - 1) m cpath body)
      eqn:E2; [apply Hv in E2; contradiction|].
    reflexivity.
  - intros other st2 path2 qs2 Hc2 Hs2 Hcl2 Hm2 Hin2 Hcp.
    rewrite (authenticate_application_outcome other st2 _ _ _ Hin2).
    rewrite (authenticate_application_outcome other st _ _ _ Hin).
    rewrite Hc2, Hs2, Hcl2, Hm2, Hcp. reflexivity.
Qed.

Lemma digest_text_is_canonical_witness :
  accepted_as "svc-a"
    (authenticate_application Demo.query_header
       (Demo.state (Demo.signed_at + 4)
          (Demo.query_request "/widgets" "id=42")))
  /\ fst (authenticate_application Demo.query_header
            (Demo.state (Demo.signed_at + 4)
               (Demo.query_request "/widgets?id=42" EmptyString)))
     = fst (authenticate_application Demo.query_header
              (Demo.state (Demo.signed_at + 4)
                 (Demo.query_request "/widgets" "id=42")))
  /\ fst (authenticate_application Demo.svc_a_header
            (Demo.state (Demo.signed_at + 4)
               (Demo.query_request "/widgets" "id=42")))
     = Raise wrong_digest.
Proof.
  assert (Hin : request_inputs
                  (Demo.state (Demo.signed_at + 4)
                     (Demo.query_request "/widgets" "id=42"))
                  "/widgets" "id=42" EmptyString) by (repeat split).
  assert (Hk : resolves_key
                 (Demo.state (Demo.signed_at + 4)
                    (Demo.query_request "/widgets" "id=42")) "svc-a" "K").
  { right. split; [reflexivity|]. exists []. reflexivity. }
  split; [|split].
  - destruct (digest_text_is_canonical _ Demo.query_header "svc-a"
                (Spec.sign "K" (Spec.window Demo.signed_at) "GET"
                   "/widgets?id=42" EmptyString)
                "K" "/widgets" "id=42" EmptyString Hin eq_refl eq_refl Hk)
      as (Hacc & _).
    apply Hacc. left. reflexivity.
  - destruct (digest_text_is_canonical _ Demo.query_header "svc-a"
                (Spec.sign "K" (Spec.window Demo.signed_at) "GET"
                   "/widgets?id=42" EmptyString)
                "K" "/widgets" "id=42" EmptyString Hin eq_refl eq_refl Hk)
      as (_ & _ & Hdep).
    apply (Hdep Demo.query_header
             (Demo.state (Demo.signed_at + 4)
                (Demo.query_request "/widgets?id=42" EmptyString))
             "/widgets?id=42" EmptyString); try reflexivity.
    repeat split.
  - destruct (digest_text_is_canonical _ Demo.svc_a_header "svc-a"
                (Spec.sign "K" (Spec.window Demo.signed_at) "GET"
                   "/widgets/42" EmptyString)
                "K" "/widgets" "id=42" EmptyString Hin eq_refl eq_refl Hk)
      as (_ & Hrej & _).
    apply Hrej; intros H; vm_compute in H; discriminate.
Defined.

(** ** The application-key cache *)

Lemma cached_no_lookup auth_token st app digest :
  split1 ":" (slice_from 5 auth_token) = [app; digest] ->
  is_Some (app_key_cache st !! app) ->
  sql_log (snd (authenticate_application auth_token st)) = sql_log st
  /\ app_key_cache (snd (authenticate_application auth_token st))
     = app_key_cache st.
Proof.
  intros Hs [k Hk].
  pose proof (authenticate_application_cases auth_token st) as HR.
  inversion HR as
    [Hp E | key Hp E | p q b Hp Hin' Hs' E
    | p q b app' dg key Hp Hin' Hs' Hc E
    | p q b app' dg key rest Hp Hin' Hs' Hc Hr E
    | p q b app' dg Hp Hin' Hs' Hc Hr E]; try (split; reflexivity).
  - destruct (verdict_frame app' dg key (method (request st))
                (Spec.canonical_path p q) b st) as [-> ->].
    split; reflexivity.
  - rewrite Hs in Hs'. inversion Hs'; subst. congruence.
  - rewrite Hs in Hs'. inversion Hs'; subst. congruence.
Qed.

(** The cache only grows: an entry is never removed or replaced. *)
Lemma cache_entries_kept auth_token st app key :
  app_key_cache st !! app = Some key ->
  app_key_cache (snd (authenticate_application auth_token st)) !! app = Some key.
Proof.
  intros Hk.
  pose proof (authenticate_application_cases auth_token st) as HR.
  inversion HR as
    [Hp E | key' Hp E | p q b Hp Hin' Hs' E
    | p q b app' dg key' Hp Hin' Hs' Hc E
    | p q b app' dg key' rest Hp Hin' Hs' Hc Hr E
    | p q b app' dg Hp Hin' Hs' Hc Hr E]; try exact Hk.
  - destruct (verdict_frame app' dg key' (method (request st))
                (Spec.canonical_path p q) b st) as [-> _]. exact Hk.
  - destruct (verdict_frame app' dg key' (method (request st))
                (Spec.canonical_path p q) b (after_lookup app' key' st))
      as [-> _].
    simpl. rewrite lookup_insert_ne; [exact Hk|]. congruence.
Qed.

(** C7: on a cache miss authenticate_application executes one statement
    on the store, the key lookup for the application.  When the
    application is found its key is put in the cache, where every later
    call finds it: the cache never loses an entry, and a call for a
    cached application executes no statement.  When it is not found the
    call fails with Unauthorized "Application not found", the cache is
    as before, and a later call, once the store has the application,
    looks it up again and caches its key. *)
Theorem cache_miss_single_lookup
    (st : State) (auth_token app digest path qs body : string) :
  startswith "hmac " auth_token = true ->
  split1 ":" (slice_from 5 auth_token) = [app; digest] ->
  request_inputs st path qs body ->
  app_key_cache st !! app = None ->
  (forall key rest,
     Sql.select_application_key (store st) app = key :: rest ->
     app_key_cache (snd (authenticate_application auth_token st))
     = <[app:=key]> (app_key_cache st)
     /\ sql_log (snd (authenticate_application auth_token st))
        = SelectApplicationKey app :: sql_log st
     /\ (forall (later : State) (token digest' : string),
           app_key_cache later !! app = Some key ->
           split1 ":" (slice_from 5 token) = [app; digest'] ->
           sql_log (snd (authenticate_application token later)) = sql_log later
           /\ app_key_cache (snd (authenticate_application token later)) !! app
              = Some key))
  /\ (Sql.select_application_key (store st) app = [] ->
      fst (authenticate_application auth_token st) = Raise application_not_found
      /\ app_key_cache (snd (authenticate_application auth_token st))
         = app_key_cache st
      /\ sql_log (snd (authenticate_application auth_token st))
         = SelectApplicationKey app :: sql_log st
      /\ (forall (db : Database) key rest,
            Sql.select_application_key db app = key :: rest ->
            sql_log (snd (authenticate_application auth_token
                            (with_store db
                               (snd (authenticate_application auth_token st)))))
            = SelectApplicationKey app
                :: sql_log (snd (authenticate_application auth_token st))
            /\ app_key_cache
                 (snd (authenticate_application auth_token
                         (with_store db
                            (snd (authenticate_application auth_token st)))))
               !! app = Some key)).
Proof.
  intros Hp Hs Hin Hc.
  assert (Hfound : forall s key rest,
    request_inputs s path qs body ->
    app_key_cache s !! app = None ->
    Sql.select_application_key (store s) app = key :: rest ->
    app_key_cache (snd (authenticate_application auth_token s))
    = <[app:=key]> (app_key_cache s)
    /\ sql_log (snd (authenticate_application auth_token s))
       = SelectApplicationKey app :: sql_log s).
  { intros s key rest Hin' Hc' Hr.
    rewrite (authenticate_application_run _ _ _ _ _ Hp Hin').
    unfold try_except. rewrite (try_miss_found _ _ _ _ _ _ _ _ _ Hs Hc' Hr).
    fold (after_lookup app key s).
    fold (try_except (verdict app digest key (method (request s))
                        (Spec.canonical_path path qs) body)
            caught_by_digest_handler (raise wrong_digest)
            (after_lookup app key s)).
    rewrite try_except_verdict.
    destruct (verdict_frame app digest key (method (request s))
                (Spec.canonical_path path qs) body (after_lookup app key s))
      as [-> ->]. split; reflexivity. }
  split.
  - intros key rest Hr. destruct (Hfound st key rest Hin Hc Hr) as [H1 H2].
    split; [exact H1|]. split; [exact H2|].
    intros later token digest' Hk Hs'. split.
    + apply (cached_no_lookup token later app digest' Hs'). eauto.
    + apply cache_entries_kept, Hk.
  - intros Hr.
    assert (E : authenticate_application auth_token st =
                (Raise application_not_found,
                 with_log (SelectApplicationKey app :: sql_log st) st)).
    { rewrite (authenticate_application_run _ _ _ _ _ Hp Hin).
      unfold try_except. rewrite (try_miss_absent _ _ _ _ _ _ _ Hs Hc Hr).
      reflexivity. }
    rewrite E. simpl. repeat split.
    + apply (Hfound (with_store db
                       (with_log (SelectApplicationKey app :: sql_log st) st))
               key rest); [exact Hin | exact Hc | exact H].
    + destruct (Hfound (with_store db
                          (with_log (SelectApplicationKey app :: sql_log st) st))
                  key rest Hin Hc H) as [-> _].
      apply lookup_insert_eq.
Qed.

Lemma cache_miss_single_lookup_witness :
  app_key_cache
    (snd (authenticate_application Demo.svc_a_header
            (Demo.state Demo.signed_at Demo.plain_request)))
  = {[ "svc-a" := "K" ]}
  /\ sql_log
       (snd (authenticate_application Demo.svc_a_header
               (Demo.state Demo.signed_at Demo.plain_request)))
     = [SelectApplicationKey "svc-a"]
  /\ fst (authenticate_application "hmac ghost:digest"
            (Demo.state Demo.signed_at Demo.plain_request))
     = Raise application_not_found
  /\ app_key_cache
       (snd (authenticate_application "hmac ghost:digest"
               (Demo.state Demo.signed_at Demo.plain_request)))
     = ∅.
Proof.
  assert (Hin : request_inputs
                  (Demo.state Demo.signed_at Demo.plain_request)
                  "/widgets/42" EmptyString EmptyString) by (repeat split).
  destruct (cache_miss_single_lookup
              (Demo.state Demo.signed_at Demo.plain_request)
              Demo.svc_a_header "svc-a"
              (Spec.sign "K" (Spec.window Demo.signed_at) "GET"
                 "/widgets/42" EmptyString)
              "/widgets/42" EmptyString EmptyString
              eq_refl eq_refl Hin eq_refl) as (Hfound & _).
  destruct (cache_miss_single_lookup
              (Demo.state Demo.signed_at Demo.plain_request)
              "hmac ghost:digest" "ghost" "digest"
              "/widgets/42" EmptyString EmptyString
              eq_refl eq_refl Hin eq_refl) as (_ & Hmissing).
  destruct (Hfound "K" [] eq_refl) as (H1 & H2 & _).
  destruct (Hmissing eq_refl) as (H3 & H4 & _).
  split; [exact H1|]. split; [exact H2|]. split; [exact H3 | exact H4].
Defined.

(** * Further properties of the module *)

(** ** The queries as relations on the tables *)

Lemma in_flat_map_if {A B} (f : A -> bool) (g : A -> list B) (l : list A) y :
  In y (flat_map (fun x => if f x then g x else []) l) <->
  exists x, In x l /\ f x = true /\ In y (g x).
Proof.
  rewrite in_flat_map. split.
  - intros (x & Hx & Hy). destruct (f x) eqn:E; [eauto | destruct Hy].
  - intros (x & Hx & Hf & Hy). exists x. rewrite Hf. auto.
Qed.

Lemma existsb_eqb_In (x : string) (l : list string) :
  existsb (String.eqb x) l = true <-> In x l.
Proof.
  rewrite existsb_exists. split.
  - intros (y & Hy & E). apply String.eqb_eq in E. subst. exact Hy.
  - intros H. exists x. split; [exact H | apply String.eqb_refl].
Qed.

Lemma nonempty_length {A} (l : list A) :
  negb (Z.of_nat (length l) =? 0) = true <-> exists x, In x l.
Proof.
  destruct l as [|a l]; simpl; split; intros H; try discriminate.
  - destruct H as [x []].
  - exists a. auto.
  - reflexivity.
Qed.

Lemma team_admin_administers db team challenger :
  team_admin db team challenger = true <-> administers_team db challenger team.
Proof.
  unfold team_admin, administers_team, Sql.select_administered_teams.
  rewrite existsb_eqb_In, in_flat_map. split.
  - intros (ta & Hta & H).
    apply in_flat_map_if in H. destruct H as ([n i] & Ht & Hid & H).
    apply in_flat_map_if in H. destruct H as (u & Hu & Hc & H).
    simpl in *. destruct H as [<- | []].
    apply andb_true_iff in Hc. destruct Hc as [Hi Hn].
    apply Z.eqb_eq in Hid, Hi. apply String.eqb_eq in Hn.
    apply list_elem_of_In, elem_of_map_to_list in Ht.
    exists ta, u. repeat split; auto. congruence.
  - intros (ta & u & Hta & Ht & Hu & Hi & Hn).
    exists ta. split; [exact Hta|].
    apply in_flat_map_if. exists (team, ta_team_id ta). split.
    { apply list_elem_of_In, elem_of_map_to_list, Ht. }
    split; [apply Z.eqb_refl|].
    apply in_flat_map_if. exists u. split; [exact Hu|]. split.
    + apply andb_true_iff. split; [apply Z.eqb_eq; auto|].
      apply String.eqb_eq, Hn.
    + left. reflexivity.
Qed.

Lemma team_member_by_id_member db team_id challenger :
  team_member_by_id db team_id challenger = true <->
  member_of_team_id db challenger team_id.
Proof.
  unfold team_member_by_id, member_of_team_id, Sql.select_team_member_by_id.
  rewrite nonempty_length. split.
  - intros (x & H). apply in_flat_map in H. destruct H as (tu & Htu & H).
    apply in_flat_map_if in H. destruct H as (u & Hu & Hc & _).
    apply andb_true_iff in Hc. destruct Hc as [Hc Hn].
    apply andb_true_iff in Hc. destruct Hc as [Hi Ht].
    apply Z.eqb_eq in Hi, Ht. apply String.eqb_eq in Hn.
    exists tu, u. auto.
  - intros (tu & u & Htu & Ht & Hu & Hi & Hn).
    exists (user_name u). apply in_flat_map. exists tu. split; [exact Htu|].
    apply in_flat_map_if. exists u. split; [exact Hu|]. split; [|left; reflexivity].
    rewrite !andb_true_iff. repeat split.
    + apply Z.eqb_eq. auto.
    + apply Z.eqb_eq, Ht.
    + apply String.eqb_eq, Hn.
Qed.

Lemma team_member_member db team challenger :
  team_member db team challenger = true <-> member_of_team db challenger team.
Proof.
  unfold team_member, member_of_team, Sql.select_team_member.
  destruct (tbl_team db !! team) as [i|] eqn:E.
  - fold (team_member_by_id db i challenger).
    rewrite team_member_by_id_member. split.
    + intros H. exists i. auto.
    + intros (j & Hj & H). congruence.
  - simpl. split; [discriminate|]. intros (j & Hj & _). discriminate.
Qed.

Lemma self_or_team_admin_administers db user challenger :
  self_or_team_admin db user challenger = true <->
  user = challenger \/ administers_user db challenger user.
Proof.
  unfold self_or_team_admin, administers_user, Sql.select_administered_users.
  rewrite orb_true_iff, String.eqb_eq, existsb_eqb_In, nodup_In, in_flat_map.
  apply or_iff_compat_l. split.
  - intros (ta & Hta & H).
    apply in_flat_map_if in H. destruct H as (tu & Htu & Ht & H).
    apply in_flat_map_if in H. destruct H as (u & Hu & Hi & H).
    apply in_flat_map_if in H. destruct H as (a & Ha & Hc & H).
    destruct H as [<- | []].
    apply andb_true_iff in Hc. destruct Hc as [Hai Han].
    apply Z.eqb_eq in Ht, Hi, Hai. apply String.eqb_eq in Han.
    exists ta, tu, u, a. repeat split; auto.
  - intros (ta & tu & u & a & Hta & Htu & Ht & Hu & Hi & Hn & Ha & Hai & Han).
    exists ta. split; [exact Hta|].
    apply in_flat_map_if. exists tu. split; [exact Htu|].
    split; [apply Z.eqb_eq, Ht|].
    apply in_flat_map_if. exists u. split; [exact Hu|].
    split; [apply Z.eqb_eq, Hi|].
    apply in_flat_map_if. exists a. split; [exact Ha|]. split.
    + apply andb_true_iff. split; [apply Z.eqb_eq, Hai | apply String.eqb_eq, Han].
    + left. exact Hn.
Qed.

(** ** What the authorization checks decide *)

Lemma decision_of_outcome (r : Result unit * State) (b c : bool) e P Q :
  fst r = (if b || c then Return tt else Raise e) ->
  (b = true <-> P) -> (c = true <-> Q) ->
  (allowed r <-> P \/ Q) /\ (~ P -> ~ Q -> fst r = Raise e).
Proof.
  intros H HP HQ. unfold allowed. rewrite H. split.
  - rewrite <- HP, <- HQ. destruct b, c; simpl; split; intros; auto;
      try discriminate. destruct H0; discriminate.
  - intros HnP HnQ. destruct b; [exfalso; apply HnP, HP; reflexivity|].
    destruct c; [exfalso; apply HnQ, HQ; reflexivity|]. reflexivity.
Qed.

(** X2: check_user_auth lets a user act on himself, lets a challenger act on
    a user who belongs to a team the challenger administers, and lets a
    superuser act on anyone; every other challenger gets HTTPForbidden
    with the message naming him. *)
Theorem check_user_auth_decision (st : State) (user challenger : string) :
  user_context st challenger ->
  (allowed (check_user_auth user st) <->
     (user = challenger \/ administers_user (store st) challenger user)
     \/ superuser (store st) challenger)
  /\ (user <> challenger ->
      ~ administers_user (store st) challenger user ->
      ~ superuser (store st) challenger ->
      fst (check_user_auth user st) = Raise (forbidden_user challenger)).
Proof.
  intros [Ha Hu].
  destruct (decision_of_outcome _ _ _ _ _ _
              (check_user_auth_outcome user challenger st Ha Hu)
              (self_or_team_admin_administers _ _ _)
              (god_superuser _ _)) as [H1 H2].
  split; [exact H1|]. intros Hne Hadm Hgod. apply H2; [tauto | exact Hgod].
Qed.

Lemma check_user_auth_decision_witness :
  allowed (check_user_auth "alice" (Demo.state 0 (Demo.user_request "bob")))
  /\ fst (check_user_auth "bob" (Demo.state 0 (Demo.user_request "alice")))
     = Raise (forbidden_user "alice").
Proof.
  split.
  - apply (check_user_auth_decision (Demo.state 0 (Demo.user_request "bob"))
             "alice" "bob"); [split; reflexivity|].
    left. right.
    exists {| ta_team_id := 10; ta_user_id := 3 |},
           {| tu_team_id := 10; tu_user_id := 1 |},
           {| user_id := 1; user_name := "alice"; user_god := false |},
           {| user_id := 3; user_name := "bob"; user_god := false |}.
    simpl. tauto.
  - apply (check_user_auth_decision (Demo.state 0 (Demo.user_request "alice"))
             "bob" "alice"); [split; reflexivity | discriminate | |].
    + intros H.
      assert (E : self_or_team_admin Demo.db "bob" "alice" = true).
      { apply self_or_team_admin_administers. right. exact H. }
      vm_compute in E. discriminate.
    + intros H. apply god_superuser in H. vm_compute in H. discriminate.
Defined.

(** X3: check_team_auth lets a challenger through when he has a team_admin
    row for the named team or is a superuser; every other challenger gets
    HTTPForbidden with the message naming him and the team.  Membership
    of the team plays no part. *)
Theorem check_team_auth_decision (st : State) (team challenger : string) :
  user_context st challenger ->
  (allowed (check_team_auth team st) <->
     administers_team (store st) challenger team
     \/ superuser (store st) challenger)
  /\ (~ administers_team (store st) challenger team ->
      ~ superuser (store st) challenger ->
      fst (check_team_auth team st) = Raise (forbidden_team challenger team)).
Proof.
  intros [Ha Hu].
  exact (decision_of_outcome _ _ _ _ _ _
           (check_team_auth_outcome team challenger st Ha Hu)
           (team_admin_administers _ _ _) (god_superuser _ _)).
Qed.

Lemma not_superuser_demo name :
  name <> "root" -> ~ superuser Demo.db name.
Proof.
  intros Hn (u & Hin & Hu & Hg). simpl in Hin.
  destruct Hin as [<- | [<- | [<- | []]]]; simpl in *; congruence.
Qed.

Lemma check_team_auth_decision_witness :
  allowed (check_team_auth "sre" (Demo.state 0 (Demo.user_request "bob")))
  /\ fst (check_team_auth "sre" (Demo.state 0 (Demo.user_request "alice")))
     = Raise (forbidden_team "alice" "sre").
Proof.
  split.
  - apply (check_team_auth_decision (Demo.state 0 (Demo.user_request "bob"))
             "sre" "bob"); [split; reflexivity|].
    left.
    exists {| ta_team_id := 10; ta_user_id := 3 |},
           {| user_id := 3; user_name := "bob"; user_god := false |}.
    simpl. repeat split; auto.
  - apply (check_team_auth_decision (Demo.state 0 (Demo.user_request "alice"))
             "sre" "alice"); [split; reflexivity | |].
    + intros H.
      assert (E : team_admin Demo.db "sre" "alice" = true)
        by (apply team_admin_administers, H).
      vm_compute in E. discriminate.
    + apply not_superuser_demo. discriminate.
Defined.

Lemma check_calendar_auth_decision_holds
    (st : State) (team : string) (user : option string) (challenger : string) :
  context (request st) !! "app" = None ->
  calendar_challenger user (request st) = Some challenger ->
  (allowed (check_calendar_auth team user st) <->
     member_of_team (store st) challenger team
     \/ superuser (store st) challenger)
  /\ (~ member_of_team (store st) challenger team ->
      ~ superuser (store st) challenger ->
      fst (check_calendar_auth team user st)
      = Raise (forbidden_calendar challenger team))
  /\ (tbl_team (store st) !! team = None ->
      ~ member_of_team (store st) challenger team).
Proof.
  intros Ha Hu.
  destruct (decision_of_outcome _ _ _ _ _ _
              (check_calendar_auth_outcome team user challenger st Ha Hu)
              (team_member_member _ _ _) (god_superuser _ _)) as [H1 H2].
  split; [exact H1|]. split; [exact H2|].
  intros Hn (i & Hi & _). congruence.
Qed.

(** X4: check_calendar_auth lets its challenger (the [user] argument, or the
    request's user when none is given) through when he has a team_user
    row for the named team or is a superuser; an unknown team name, or a
    team_admin row without a team_user row, gives HTTPForbidden unless
    the challenger is a superuser. *)
Theorem check_calendar_auth_decision
    (st : State) (team : string) (user : option string) (challenger : string) :
  context (request st) !! "app" = None ->
  calendar_challenger user (request st) = Some challenger ->
  (allowed (check_calendar_auth team user st) <->
     member_of_team (store st) challenger team
     \/ superuser (store st) challenger)
  /\ (~ member_of_team (store st) challenger team ->
      ~ superuser (store st) challenger ->
      fst (check_calendar_auth team user st)
      = Raise (forbidden_calendar challenger team))
  /\ (tbl_team (store st) !! team = None ->
      ~ member_of_team (store st) challenger team).
Proof. exact (check_calendar_auth_decision_holds st team user challenger). Qed.

Lemma check_calendar_auth_decision_witness :
  allowed (check_calendar_auth "sre" None
             (Demo.state 0 (Demo.user_request "alice")))
  /\ fst (check_calendar_auth "sre" (Some "bob")
            (Demo.state 0 (Demo.user_request "alice")))
     = Raise (forbidden_calendar "bob" "sre")
  /\ fst (check_calendar_auth "ops" None
            (Demo.state 0 (Demo.user_request "alice")))
     = Raise (forbidden_calendar "alice" "ops").
Proof.
  assert (Hno : forall name team,
            team_member Demo.db team name = false ->
            ~ member_of_team Demo.db name team).
  { intros name team E H. apply team_member_member in H. congruence. }
  split; [|split].
  - apply (check_calendar_auth_decision
             (Demo.state 0 (Demo.user_request "alice")) "sre" None "alice");
      [reflexivity | reflexivity |].
    left. exists 10. split; [reflexivity|].
    exists {| tu_team_id := 10; tu_user_id := 1 |},
           {| user_id := 1; user_name := "alice"; user_god := false |}.
    simpl. repeat split; auto.
  - apply (check_calendar_auth_decision
             (Demo.state 0 (Demo.user_request "alice")) "sre" (Some "bob") "bob");
      [reflexivity | reflexivity | |].
    + apply Hno. reflexivity.
    + apply not_superuser_demo. discriminate.
  - apply (check_calendar_auth_decision
             (Demo.state 0 (Demo.user_request "alice")) "ops" None "alice");
      [reflexivity | reflexivity | |].
    + apply Hno. reflexivity.
    + apply not_superuser_demo. discriminate.
Defined.

(** X5: check_calendar_auth_by_id lets the request's user through when he has
    a team_user row for the team id or is a superuser, and gives
    HTTPForbidden otherwise; for a team name the team table maps to that
    id it allows exactly what check_calendar_auth allows for the name. *)
Theorem check_calendar_auth_by_id_decision
    (st : State) (team_id : Z) (challenger : string) :
  user_context st challenger ->
  (allowed (check_calendar_auth_by_id team_id st) <->
     member_of_team_id (store st) challenger team_id
     \/ superuser (store st) challenger)
  /\ (~ member_of_team_id (store st) challenger team_id ->
      ~ superuser (store st) challenger ->
      fst (check_calendar_auth_by_id team_id st)
      = Raise (forbidden_calendar_by_id challenger))
  /\ (forall team,
        tbl_team (store st) !! team = Some team_id ->
        (allowed (check_calendar_auth team None st) <->
         allowed (check_calendar_auth_by_id team_id st))).
Proof.
  intros [Ha Hu].
  destruct (decision_of_outcome _ _ _ _ _ _
              (check_calendar_auth_by_id_outcome team_id challenger st Ha Hu)
              (team_member_by_id_member _ _ _) (god_superuser _ _)) as [H1 H2].
  split; [exact H1|]. split; [exact H2|].
  intros team Ht. rewrite H1.
  destruct (check_calendar_auth_decision_holds st team None challenger Ha Hu)
    as (-> & _).
  apply or_iff_compat_r. unfold member_of_team. split.
  - intros (i & Hi & H). congruence.
  - intros H. eauto.
Qed.

Lemma check_calendar_auth_by_id_decision_witness :
  allowed (check_calendar_auth_by_id 10
             (Demo.state 0 (Demo.user_request "alice")))
  /\ fst (check_calendar_auth_by_id 10
            (Demo.state 0 (Demo.user_request "bob")))
     = Raise (forbidden_calendar_by_id "bob").
Proof.
  split.
  - apply (check_calendar_auth_by_id_decision
             (Demo.state 0 (Demo.user_request "alice")) 10 "alice");
      [split; reflexivity|].
    left.
    exists {| tu_team_id := 10; tu_user_id := 1 |},
           {| user_id := 1; user_name := "alice"; user_god := false |}.
    simpl. repeat split; auto.
  - apply (check_calendar_auth_by_id_decision
             (Demo.state 0 (Demo.user_request "bob")) 10 "bob");
      [split; reflexivity | |].
    + intros H. apply team_member_by_id_member in H. vm_compute in H.
      discriminate.
    + apply not_superuser_demo. discriminate.
Defined.

(** ** What the authorization checks do to the state *)



(** X7: On a request whose context names neither an application nor a user,
    the checks that read req.context['user'] let the KeyError through
    and execute no statement; check_calendar_auth called with an explicit
    [user] does not read the context and never raises KeyError. *)
Theorem checks_need_an_identity
    (st : State) (user team : string) (team_id : Z) :
  anonymous st ->
  check_user_auth user st = (Raise (KeyError "user"), st)
  /\ check_team_auth team st = (Raise (KeyError "user"), st)
  /\ check_calendar_auth team None st = (Raise (KeyError "user"), st)
  /\ check_calendar_auth_by_id team_id st = (Raise (KeyError "user"), st)
  /\ (forall key, fst (check_calendar_auth team (Some user) st)
                  <> Raise (KeyError key)).
Proof.
  intros [Ha Hu]. repeat split.
  - unfold check_user_auth. run. rewrite Ha, Hu. reflexivity.
  - unfold check_team_auth. run. rewrite Ha, Hu. reflexivity.
  - unfold check_calendar_auth. run. rewrite Ha, Hu. reflexivity.
  - unfold check_calendar_auth_by_id. run. rewrite Ha, Hu. reflexivity.
  - intros key.
    rewrite (check_calendar_auth_outcome team (Some user) user st Ha eq_refl).
    destruct (_ || _); discriminate.
Qed.

Lemma checks_need_an_identity_witness :
  check_team_auth "sre" (Demo.state 0 Demo.plain_request)
  = (Raise (KeyError "user"), Demo.state 0 Demo.plain_request)
  /\ allowed (check_calendar_auth "sre" (Some "alice")
                (Demo.state 0 Demo.plain_request)).
Proof.
  destruct (checks_need_an_identity (Demo.state 0 Demo.plain_request)
              "alice" "sre" 10) as (_ & Ht & _); [split; reflexivity|].
  split; [exact Ht | reflexivity].
Defined.

(** ** Digest authentication: what a call can and cannot do *)

Lemma startswith_cons a p s :
  startswith (String a p) s = true ->
  exists s', s = String a s' /\ startswith p s' = true.
Proof.
  destruct s as [|c s]; simpl; [discriminate|].
  destruct (Ascii.eqb_spec a c); [subst; eauto | discriminate].
Qed.

Lemma startswith_hmac auth_token :
  startswith "hmac " auth_token = true ->
  auth_token = "hmac " +:+ slice_from 5 auth_token.
Proof.
  intros H.
  apply startswith_cons in H. destruct H as (s1 & -> & H).
  apply startswith_cons in H. destruct H as (s2 & -> & H).
  apply startswith_cons in H. destruct H as (s3 & -> & H).
  apply startswith_cons in H. destruct H as (s4 & -> & H).
  apply startswith_cons in H. destruct H as (s5 & -> & H).
  reflexivity.
Qed.

Lemma split1_pair sep s a d :
  split1 sep s = [a; d] -> occurs sep a = false /\ s = a +:+ String sep d.
Proof.
  revert a d. induction s as [|c s IH]; simpl; intros a d H; [discriminate|].
  destruct (Ascii.eqb c sep) eqn:E.
  - inversion H; subst. apply Ascii.eqb_eq in E. subst. auto.
  - destruct (split1 sep s) as [|b [|d' [|]]] eqn:Es; try discriminate.
    inversion H; subst. destruct (IH b d eq_refl) as [Ho ->].
    simpl. rewrite E, Ho. auto.
Qed.

Lemma verdict_return app digest key m p b st :
  fst (verdict app digest key m p b st) = Return tt ->
  (digest = Spec.sign key (Spec.window (clock st)) m p b
   \/ digest = Spec.sign key (Spec.window (clock st) - 1) m p b)
  /\ snd (verdict app digest key m p b st)
     = with_request
         (set_context (<["app":=app]> (context (request st))) (request st)) st.
Proof.
  unfold verdict, Spec.window.
  destruct (is_client_digest_valid digest key (clock st / 5) m p b) eqn:E1.
  - simpl. intros _. split; [|reflexivity].
    left. apply is_client_digest_valid_spec, E1.
  - destruct (is_client_digest_valid digest key (clock st / 5 - 1) m p b) eqn:E2.
    + simpl. intros _. split; [|reflexivity].
      right. apply is_client_digest_valid_spec, E2.
    + simpl. discriminate.
Qed.

Lemma verdict_raise app digest key m p b st e :
  fst (verdict app digest key m p b st) = Raise e ->
  e = wrong_digest /\ snd (verdict app digest key m p b st) = st.
Proof.
  unfold verdict. destruct (_ || _); simpl; [discriminate|].
  intros H. inversion H. auto.
Qed.

Lemma authenticate_application_sound_holds (st : State) (auth_token : string) :
  fst (authenticate_application auth_token st) = Return tt ->
  exists app digest key path qs body,
    auth_token = Spec.signature_header app digest
    /\ occurs ":" app = false
    /\ request_inputs st path qs body
    /\ resolves_key st app key
    /\ (digest = Spec.sign key (Spec.window (clock st)) (method (request st))
                   (Spec.canonical_path path qs) body
        \/ digest = Spec.sign key (Spec.window (clock st) - 1)
                      (method (request st)) (Spec.canonical_path path qs) body)
    /\ context (request (snd (authenticate_application auth_token st))) !! "app"
       = Some app
    /\ app_key_cache (snd (authenticate_application auth_token st)) !! app
       = Some key.
Proof.
  pose proof (authenticate_application_cases auth_token st) as HR.
  inversion HR as
    [Hp E | key Hp E | p q b Hp Hin Hs E
    | p q b app dg key Hp Hin Hs Hc E
    | p q b app dg key rest Hp Hin Hs Hc Hr E
    | p q b app dg Hp Hin Hs Hc Hr E]; try discriminate; intros Hret.
  - destruct (verdict_return _ _ _ _ _ _ _ Hret) as [Hd Hsnd].
    destruct (split1_pair _ _ _ _ Hs) as [Ho Hsl].
    exists app, dg, key, p, q, b. rewrite Hsnd.
    split; [|split; [exact Ho|split; [exact Hin|split; [left; exact Hc|]]]].
    + rewrite (startswith_hmac _ Hp), Hsl. reflexivity.
    + split; [exact Hd|]. split; [apply lookup_insert_eq | exact Hc].
  - destruct (verdict_return _ _ _ _ _ _ _ Hret) as [Hd Hsnd].
    destruct (split1_pair _ _ _ _ Hs) as [Ho Hsl].
    exists app, dg, key, p, q, b. rewrite Hsnd.
    split; [|split; [exact Ho|split; [exact Hin|split]]].
    + rewrite (startswith_hmac _ Hp), Hsl. reflexivity.
    + right. split; [exact Hc|]. exists rest. exact Hr.
    + split; [exact Hd|]. split; apply lookup_insert_eq.
Qed.

(** X8: authenticate_application returns only for a header of the form
    "hmac <app>:<digest>" whose application name has no ':', on a request
    that has its path, query string and body, when the credential store
    resolves the application to a key and the digest is the one signed
    with that key over the request for the server's window or the one
    before; it then has marked the context with that application and
    holds the key in the cache. *)
Theorem authenticate_application_sound (st : State) (auth_token : string) :
  fst (authenticate_application auth_token st) = Return tt ->
  exists app digest key path qs body,
    auth_token = Spec.signature_header app digest
    /\ occurs ":" app = false
    /\ request_inputs st path qs body
    /\ resolves_key st app key
    /\ (digest = Spec.sign key (Spec.window (clock st)) (method (request st))
                   (Spec.canonical_path path qs) body
        \/ digest = Spec.sign key (Spec.window (clock st) - 1)
                      (method (request st)) (Spec.canonical_path path qs) body)
    /\ context (request (snd (authenticate_application auth_token st))) !! "app"
       = Some app
    /\ app_key_cache (snd (authenticate_application auth_token st)) !! app
       = Some key.
Proof. exact (authenticate_application_sound_holds st auth_token). Qed.

Lemma authenticate_application_sound_witness :
  exists app digest key path qs body,
    Demo.svc_a_header = Spec.signature_header app digest
    /\ occurs ":" app = false
    /\ request_inputs (Demo.state (Demo.signed_at + 4) Demo.plain_request)
         path qs body
    /\ resolves_key (Demo.state (Demo.signed_at + 4) Demo.plain_request) app key
    /\ (digest = Spec.sign key (Spec.window (Demo.signed_at + 4)) "GET"
                   (Spec.canonical_path path qs) body
        \/ digest = Spec.sign key (Spec.window (Demo.signed_at + 4) - 1) "GET"
                      (Spec.canonical_path path qs) body)
    /\ context (request (snd (authenticate_application Demo.svc_a_header
                  (Demo.state (Demo.signed_at + 4) Demo.plain_request))))
         !! "app" = Some app
    /\ app_key_cache (snd (authenticate_application Demo.svc_a_header
                  (Demo.state (Demo.signed_at + 4) Demo.plain_request)))
         !! app = Some key.
Proof.
  apply (authenticate_application_sound
           (Demo.state (Demo.signed_at + 4) Demo.plain_request)
           Demo.svc_a_header).
  vm_compute. reflexivity.
Defined.

Lemma missing_request_input_is_a_key_error_holds
    (st : State) (auth_token : string) :
  startswith "hmac " auth_token = true ->
  (env (request st) !! "PATH_INFO" = None ->
   authenticate_application auth_token st = (Raise (KeyError "PATH_INFO"), st))
  /\ (is_Some (env (request st) !! "PATH_INFO") ->
      env (request st) !! "QUERY_STRING" = None ->
      authenticate_application auth_token st
      = (Raise (KeyError "QUERY_STRING"), st))
  /\ (is_Some (env (request st) !! "PATH_INFO") ->
      is_Some (env (request st) !! "QUERY_STRING") ->
      context (request st) !! "body" = None ->
      authenticate_application auth_token st = (Raise (KeyError "body"), st)).
Proof.
  intros Hp. unfold authenticate_application. rewrite Hp. run.
  split; [|split].
  - intros ->. reflexivity.
  - intros [p ->] ->. reflexivity.
  - intros [p ->] [q ->] ->. reflexivity.
Qed.

(** X10: The path, the query string and the body are read, in this order,
    before the [try] block: when one is missing from a request whose
    header has the "hmac " prefix, the KeyError for it leaves
    authenticate_application as it is, not as an HTTPUnauthorized, and
    nothing has been executed or changed. *)
Theorem missing_request_input_is_a_key_error
    (st : State) (auth_token : string) :
  startswith "hmac " auth_token = true ->
  (env (request st) !! "PATH_INFO" = None ->
   authenticate_application auth_token st = (Raise (KeyError "PATH_INFO"), st))
  /\ (is_Some (env (request st) !! "PATH_INFO") ->
      env (request st) !! "QUERY_STRING" = None ->
      authenticate_application auth_token st
      = (Raise (KeyError "QUERY_STRING"), st))
  /\ (is_Some (env (request st) !! "PATH_INFO") ->
      is_Some (env (request st) !! "QUERY_STRING") ->
      context (request st) !! "body" = None ->
      authenticate_application auth_token st = (Raise (KeyError "body"), st)).
Proof. exact (missing_request_input_is_a_key_error_holds st auth_token). Qed.

Lemma missing_request_input_is_a_key_error_witness :
  authenticate_application Demo.svc_a_header
    (Demo.state 0 (set_context ∅ Demo.plain_request))
  = (Raise (KeyError "body"), Demo.state 0 (set_context ∅ Demo.plain_request)).
Proof.
  destruct (missing_request_input_is_a_key_error
              (Demo.state 0 (set_context ∅ Demo.plain_request))
              Demo.svc_a_header eq_refl) as (_ & _ & H).
  apply H.
  - exists "/widgets/42". reflexivity.
  - exists EmptyString. reflexivity.
  - reflexivity.
Defined.

Lemma missing_input_keys auth_token st key :
  fst (authenticate_application auth_token st) = Raise (KeyError key) ->
  key = "PATH_INFO" \/ key = "QUERY_STRING" \/ key = "body".
Proof.
  intros H.
  destruct (startswith "hmac " auth_token) eqn:Hp.
  2:{ rewrite (authenticate_application_no_prefix _ _ Hp) in H. discriminate. }
  destruct (missing_request_input_is_a_key_error_holds st auth_token Hp)
    as (H1 & H2 & H3).
  destruct (env (request st) !! "PATH_INFO") as [p|] eqn:E1.
  2:{ rewrite H1 in H by auto. inversion H. auto. }
  destruct (env (request st) !! "QUERY_STRING") as [q|] eqn:E2.
  2:{ rewrite H2 in H by eauto. inversion H. auto. }
  destruct (context (request st) !! "body") as [b|] eqn:E3.
  2:{ rewrite H3 in H by eauto. inversion H. auto. }
  exfalso.
  assert (Hin : request_inputs st p q b) by (repeat split; auto).
  rewrite (authenticate_application_outcome auth_token st p q b Hin) in H.
  unfold digest_outcome in H. rewrite Hp in H. cbn [negb] in H.
  destruct (split1 ":" (slice_from 5 auth_token)) as [|a [|d [|]]];
    try discriminate.
  destruct (match app_key_cache st !! a with
            | Some key => Some key
            | None => head (Sql.select_application_key (store st) a)
            end); [|discriminate].
  destruct (_ || _); discriminate.
Qed.

Lemma authenticate_application_effects_holds (st : State) (auth_token : string) :
  store (snd (authenticate_application auth_token st)) = store st
  /\ clock (snd (authenticate_application auth_token st)) = clock st
  /\ ((fst (authenticate_application auth_token st) = Return tt
       /\ exists app,
            request (snd (authenticate_application auth_token st))
            = set_context (<["app":=app]> (context (request st))) (request st))
      \/ (request (snd (authenticate_application auth_token st)) = request st
          /\ (fst (authenticate_application auth_token st)
              = Raise invalid_digest_format
              \/ fst (authenticate_application auth_token st) = Raise wrong_digest
              \/ fst (authenticate_application auth_token st)
                 = Raise application_not_found
              \/ exists key,
                   fst (authenticate_application auth_token st)
                   = Raise (KeyError key)
                   /\ (key = "PATH_INFO" \/ key = "QUERY_STRING"
                       \/ key = "body")))).
Proof.
  pose proof (authenticate_application_cases auth_token st) as HR.
  assert (Hv : forall app dg k m p b s,
    store s = store st -> clock s = clock st -> request s = request st ->
    store (snd (verdict app dg k m p b s)) = store st
    /\ clock (snd (verdict app dg k m p b s)) = clock st
    /\ ((fst (verdict app dg k m p b s) = Return tt
         /\ exists app0,
              request (snd (verdict app dg k m p b s))
              = set_context (<["app":=app0]> (context (request st))) (request st))
        \/ (request (snd (verdict app dg k m p b s)) = request st
            /\ fst (verdict app dg k m p b s) = Raise wrong_digest))).
  { intros app dg k m p b s Hs Hc Hr. unfold verdict.
    destruct (_ || _); simpl; rewrite ?Hs, ?Hc, ?Hr.
    - split; [reflexivity|]. split; [reflexivity|]. left. eauto.
    - split; [reflexivity|]. split; [reflexivity|]. right. auto. }
  inversion HR as
    [Hp E | k Hp E | p q b Hp Hin Hs E
    | p q b app dg k Hp Hin Hs Hc E
    | p q b app dg k rest Hp Hin Hs Hc Hr E
    | p q b app dg Hp Hin Hs Hc Hr E]; simpl.
  - repeat split. right. auto.
  - repeat split. right. split; [reflexivity|]. do 3 right.
    exists k. split; [reflexivity|].
    apply (missing_input_keys auth_token st). rewrite <- E. reflexivity.
  - repeat split. right. auto.
  - destruct (Hv app dg k (method (request st)) (Spec.canonical_path p q) b st
                eq_refl eq_refl eq_refl) as (H1 & H2 & [H3 | [H3 H4]]).
    + split; [exact H1|]. split; [exact H2|]. left. exact H3.
    + split; [exact H1|]. split; [exact H2|]. right. auto.
  - destruct (Hv app dg k (method (request st)) (Spec.canonical_path p q) b
                (after_lookup app k st) eq_refl eq_refl eq_refl)
      as (H1 & H2 & [H3 | [H3 H4]]).
    + split; [exact H1|]. split; [exact H2|]. left. exact H3.
    + split; [exact H1|]. split; [exact H2|]. right. auto.
  - repeat split. right. auto.
Qed.

(** X9: authenticate_application never changes the store or the clock, and
    it changes the request only when it returns, by setting the 'app' key
    of the context: whatever it raises, the request is left as it was.
    A ValueError never leaves it; an HTTPUnauthorized it raises is
    "Invalid digest format", "Wrong digest" or "Application not found";
    and a KeyError it lets through is that of a missing PATH_INFO,
    QUERY_STRING or body. *)
Theorem authenticate_application_effects (st : State) (auth_token : string) :
  store (snd (authenticate_application auth_token st)) = store st
  /\ clock (snd (authenticate_application auth_token st)) = clock st
  /\ (fst (authenticate_application auth_token st) = Return tt ->
      exists app,
        request (snd (authenticate_application auth_token st))
        = set_context (<["app":=app]> (context (request st))) (request st))
  /\ (forall e,
        fst (authenticate_application auth_token st) = Raise e ->
        request (snd (authenticate_application auth_token st)) = request st
        /\ e <> ValueError)
  /\ (forall title description challenges,
        fst (authenticate_application auth_token st)
        = Raise (HTTPUnauthorized title description challenges) ->
        HTTPUnauthorized title description challenges = invalid_digest_format
        \/ HTTPUnauthorized title description challenges = wrong_digest
        \/ HTTPUnauthorized title description challenges
           = application_not_found)
  /\ (forall key,
        fst (authenticate_application auth_token st) = Raise (KeyError key) ->
        key = "PATH_INFO" \/ key = "QUERY_STRING" \/ key = "body").
Proof.
  destruct (authenticate_application_effects_holds st auth_token)
    as (Hs & Hc & Hcases).
  split; [exact Hs|]. split; [exact Hc|]. split; [|split; [|split]].
  - intros Hret.
    destruct Hcases as [[_ Happ] | [_ Herr]]; [exact Happ|].
    destruct Herr as [Hr | [Hr | [Hr | (key & Hr & _)]]];
      rewrite Hret in Hr; discriminate.
  - intros e He.
    destruct Hcases as [[Hret _] | [Hreq Herr]];
      [rewrite Hret in He; discriminate|].
    split; [exact Hreq|].
    destruct Herr as [Hr | [Hr | [Hr | (key & Hr & _)]]];
      rewrite He in Hr; inversion Hr; discriminate.
  - intros t d c He.
    destruct Hcases as [[Hret _] | [_ Herr]];
      [rewrite Hret in He; discriminate|].
    destruct Herr as [Hr | [Hr | [Hr | (key & Hr & _)]]];
      rewrite He in Hr; inversion Hr; auto.
  - intros key. apply missing_input_keys.
Qed.

Lemma authenticate_application_effects_witness :
  request (snd (authenticate_application "hmac svc-a:forged"
                  (Demo.state Demo.signed_at Demo.plain_request)))
  = Demo.plain_request
  /\ exists app,
       request (snd (authenticate_application Demo.svc_a_header
                       (Demo.state Demo.signed_at Demo.plain_request)))
       = set_context (<["app":=app]> (context Demo.plain_request))
           Demo.plain_request.
Proof.
  destruct (authenticate_application_effects
              (Demo.state Demo.signed_at Demo.plain_request)
              "hmac svc-a:forged") as (_ & _ & _ & Hraise & _).
  destruct (authenticate_application_effects
              (Demo.state Demo.signed_at Demo.plain_request)
              Demo.svc_a_header) as (_ & _ & Hret & _).
  split.
  - apply (Hraise wrong_digest). vm_compute. reflexivity.
  - apply Hret. vm_compute. reflexivity.
Defined.

(** X11: A header that was accepted is accepted again: nothing in the digest
    is used up.  Presented again on the request as the first call left
    it, at any clock time of the same window, it is accepted as the same
    application, and this time no statement is executed. *)
Theorem accepted_header_can_be_replayed
    (st : State) (auth_token app : string) (later : Z) :
  accepted_as app (authenticate_application auth_token st) ->
  Spec.window later = Spec.window (clock st) ->
  accepted_as app
    (authenticate_application auth_token
       (with_clock later (snd (authenticate_application auth_token st))))
  /\ sql_log (snd (authenticate_application auth_token
                     (with_clock later
                        (snd (authenticate_application auth_token st)))))
     = sql_log (snd (authenticate_application auth_token st)).
Proof.
  intros [Hret Happ] Hw.
  destruct (authenticate_application_sound_holds st auth_token Hret)
    as (a & d & k & p & q & b & Htok & Ho & Hin & Hk & Hd & Hctx & Hcache).
  assert (a = app) as -> by congruence.
  destruct (authenticate_application_effects_holds st auth_token)
    as (Hstore & Hclock & [[_ [a' Hreq]] | [_ Herr]]).
  2:{ exfalso.
      destruct Herr as [Hr | [Hr | [Hr | (key & Hr & _)]]];
        rewrite Hret in Hr; discriminate. }
  set (st1 := snd (authenticate_application auth_token st)) in *.
  destruct (signature_header_parts app d Ho) as [Hp Hs].
  rewrite <- Htok in Hp, Hs.
  destruct Hin as (Hpath & Hqs & Hbody).
  assert (Hin1 : request_inputs (with_clock later st1) p q b).
  { unfold request_inputs. simpl. rewrite Hreq. simpl.
    repeat split; auto. rewrite lookup_insert_ne by discriminate. exact Hbody. }
  assert (Hk1 : resolves_key (with_clock later st1) app k) by (left; exact Hcache).
  split.
  - destruct (authenticate_application_resolved _ _ _ _ _ _ _ _ Hp Hs Hin1 Hk1)
      as (st' & Hrun & Hclock' & Hreq').
    rewrite Hrun. apply verdict_accepts. rewrite Hclock'. simpl.
    unfold Spec.window in *. rewrite Hw. rewrite Hreq. simpl.
    destruct Hd as [Hd | Hd]; [left | right];
      apply is_client_digest_valid_spec; exact Hd.
  - apply (cached_no_lookup auth_token (with_clock later st1) app d Hs).
    simpl. rewrite Hcache. eauto.
Qed.

Lemma accepted_header_can_be_replayed_witness :
  accepted_as "svc-a"
    (authenticate_application Demo.svc_a_header
       (with_clock (Demo.signed_at + 4)
          (snd (authenticate_application Demo.svc_a_header
                  (Demo.state (Demo.signed_at + 1) Demo.plain_request)))))
  /\ sql_log (snd (authenticate_application Demo.svc_a_header
       (with_clock (Demo.signed_at + 4)
          (snd (authenticate_application Demo.svc_a_header
                  (Demo.state (Demo.signed_at + 1) Demo.plain_request))))))
     = [SelectApplicationKey "svc-a"].
Proof.
  apply (accepted_header_can_be_replayed
           (Demo.state (Demo.signed_at + 1) Demo.plain_request)
           Demo.svc_a_header "svc-a" (Demo.signed_at + 4)).
  - split; vm_compute; reflexivity.
  - reflexivity.
Defined.

Lemma format_text_shift w m p seg b :
  format_text w m (p +:+ " " +:+ seg) b = format_text w m p (seg +:+ " " +:+ b).
Proof.
  unfold format_text.
  assert (Hassoc : forall s t u : string, (s +:+ t) +:+ u = s +:+ (t +:+ u)).
  { intros s t u. induction s as [|x s IH]; [reflexivity|].
    change (String x ((s +:+ t) +:+ u) = String x (s +:+ (t +:+ u))).
    rewrite IH. reflexivity. }
  f_equal. f_equal. f_equal. f_equal.
  rewrite !Hassoc. reflexivity.
Qed.

(** X12: The digest text joins its parts with single spaces and nothing marks
    where the path ends and the body begins: a request whose canonical
    path ends in " <segment>" and a request that carries the segment at
    the start of its body instead have the same digest text, so for the
    same header, cache, store, clock and method authenticate_application
    gives both the same result. *)
Theorem digest_text_does_not_delimit_path_and_body
    (st1 st2 : State) (auth_token path1 qs1 path2 qs2 segment body : string) :
  app_key_cache st2 = app_key_cache st1 ->
  store st2 = store st1 ->
  clock st2 = clock st1 ->
  method (request st2) = method (request st1) ->
  request_inputs st1 path1 qs1 body ->
  request_inputs st2 path2 qs2 (segment +:+ " " +:+ body) ->
  Spec.canonical_path path1 qs1
  = Spec.canonical_path path2 qs2 +:+ " " +:+ segment ->
  fst (authenticate_application auth_token st2)
  = fst (authenticate_application auth_token st1).
Proof.
  intros Hc Hs Hcl Hm Hin1 Hin2 Hp.
  rewrite (authenticate_application_outcome auth_token st1 _ _ _ Hin1).
  rewrite (authenticate_application_outcome auth_token st2 _ _ _ Hin2).
  rewrite Hc, Hs, Hcl, Hm, Hp. unfold digest_outcome.
  destruct (negb _); [reflexivity|].
  destruct (split1 ":" (slice_from 5 auth_token)) as [|a [|d [|]]];
    try reflexivity.
  destruct (match app_key_cache st1 !! a with
            | Some key => Some key
            | None => head (Sql.select_application_key (store st1) a)
            end) as [k|]; [|reflexivity].
  unfold is_client_digest_valid. rewrite !format_text_shift. reflexivity.
Qed.

Lemma digest_text_does_not_delimit_path_and_body_witness :
  fst (authenticate_application Notes.header
         (Demo.state Demo.signed_at (Notes.post "/notes/a" "b c")))
  = fst (authenticate_application Notes.header
           (Demo.state Demo.signed_at (Notes.post "/notes/a b" "c")))
  /\ accepted_as "svc-a"
       (authenticate_application Notes.header
          (Demo.state Demo.signed_at (Notes.post "/notes/a" "b c"))).
Proof.
  split.
  - apply (digest_text_does_not_delimit_path_and_body
             (Demo.state Demo.signed_at (Notes.post "/notes/a b" "c"))
             (Demo.state Demo.signed_at (Notes.post "/notes/a" "b c"))
             Notes.header "/notes/a b" EmptyString "/notes/a" EmptyString
             "b" "c"); try reflexivity; repeat split.
  - split; vm_compute; reflexivity.
Defined.

(** X14: The cache holds only keys that the store holds: when every cached
    key is among the keys the store returns for its application, the
    same is true after authenticate_application, whatever the header. *)
Theorem cache_keys_come_from_the_store (st : State) (auth_token : string) :
  cache_reflects_store st ->
  cache_reflects_store (snd (authenticate_application auth_token st)).
Proof.
  intros Hinv. unfold cache_reflects_store.
  destruct (authenticate_application_effects_holds st auth_token) as (Hstore & _).
  rewrite Hstore.
  pose proof (authenticate_application_cases auth_token st) as HR.
  inversion HR as
    [Hp E | k Hp E | p q b Hp Hin Hs E
    | p q b app dg k Hp Hin Hs Hc E
    | p q b app dg k rest Hp Hin Hs Hc Hr E
    | p q b app dg Hp Hin Hs Hc Hr E]; simpl; try exact Hinv.
  - destruct (verdict_frame app dg k (method (request st))
                (Spec.canonical_path p q) b st) as [-> _]. exact Hinv.
  - destruct (verdict_frame app dg k (method (request st))
                (Spec.canonical_path p q) b (after_lookup app k st)) as [-> _].
    simpl. intros a key Ha.
    destruct (decide (app = a)) as [<- | Hne].
    + rewrite lookup_insert_eq in Ha. inversion Ha; subst.
      rewrite Hr. left. reflexivity.
    + rewrite lookup_insert_ne in Ha by exact Hne. apply Hinv, Ha.
Qed.

Lemma cache_keys_come_from_the_store_witness :
  cache_reflects_store
    (snd (authenticate_application Demo.svc_a_header
            (Demo.state Demo.signed_at Demo.plain_request))).
Proof.
  apply (cache_keys_come_from_the_store
           (Demo.state Demo.signed_at Demo.plain_request) Demo.svc_a_header).
  intros app key H. simpl in H. rewrite lookup_empty in H. discriminate.
Defined.

(** ** Session authentication: what a call can and cannot do *)

Lemma authenticate_user_no_session st :
  beaker_session (request st) = None ->
  _authenticate_user st = (Raise (KeyError "beaker.session"), st).
Proof.
  intros H. unfold _authenticate_user. run. rewrite H. reflexivity.
Qed.

Lemma authenticate_user_sound_holds (st : State) :
  fst (_authenticate_user st) = Return tt ->
  exists session user sid (token : option string),
    beaker_session (request st) = Some session
    /\ session !! "user" = Some user
    /\ session !! "_id" = Some sid
    /\ Sql.select_csrf_token (store st) sid = [token]
    /\ headers (request st) !! "X-CSRF-TOKEN" = token
    /\ context (request (snd (_authenticate_user st))) !! "user" = Some user.
Proof.
  intros Hret.
  destruct (beaker_session (request st)) as [session|] eqn:Hs.
  2:{ rewrite (authenticate_user_no_session _ Hs) in Hret. discriminate. }
  destruct (session !! "user") as [user|] eqn:Hu.
  2:{ rewrite (authenticate_user_no_user _ _ Hs Hu) in Hret. discriminate. }
  destruct (session !! "_id") as [sid|] eqn:Hi.
  2:{ rewrite (authenticate_user_no_id _ _ _ Hs Hu Hi) in Hret. discriminate. }
  destruct (authenticate_user_lookup st session user sid Hs Hu Hi)
    as (Hr & Hreq & _).
  rewrite Hr in Hret.
  destruct (Sql.select_csrf_token (store st) sid) as [|token [|t2 l]] eqn:Et;
    try discriminate.
  destruct (bool_decide (headers (request st) !! "X-CSRF-TOKEN" = token))
    eqn:Eh; [|discriminate].
  apply bool_decide_eq_true_1 in Eh.
  exists session, user, sid, token. repeat split; auto.
  rewrite Hreq. simpl. apply lookup_insert_eq.
Qed.

(** X15: _authenticate_user returns only when the session has a user and an
    id, the store holds exactly one token row for that id, and what
    req.get_header('X-CSRF-TOKEN') gives equals the stored token, where an
    absent header equals a NULL token; the context then names the
    session's user. *)
Theorem authenticate_user_sound (st : State) :
  fst (_authenticate_user st) = Return tt ->
  exists session user sid (token : option string),
    beaker_session (request st) = Some session
    /\ session !! "user" = Some user
    /\ session !! "_id" = Some sid
    /\ Sql.select_csrf_token (store st) sid = [token]
    /\ headers (request st) !! "X-CSRF-TOKEN" = token
    /\ context (request (snd (_authenticate_user st))) !! "user" = Some user.
Proof. exact (authenticate_user_sound_holds st). Qed.

Lemma authenticate_user_sound_witness :
  exists session user sid (token : option string),
    beaker_session (Demo.session_request "s3" None) = Some session
    /\ session !! "user" = Some user
    /\ session !! "_id" = Some sid
    /\ Sql.select_csrf_token Demo.db sid = [token]
    /\ headers (Demo.session_request "s3" None) !! "X-CSRF-TOKEN" = token
    /\ context (request (snd (_authenticate_user
                  (Demo.state 0 (Demo.session_request "s3" None)))))
         !! "user" = Some user.
Proof.
  apply (authenticate_user_sound
           (Demo.state 0 (Demo.session_request "s3" None))).
  reflexivity.
Defined.

Lemma authenticate_user_outcomes st session :
  beaker_session (request st) = Some session ->
  fst (_authenticate_user st) = Return tt
  \/ fst (_authenticate_user st) = Raise must_be_logged_in
  \/ fst (_authenticate_user st) = Raise csrf_token_missing
  \/ fst (_authenticate_user st) = Raise csrf_validation_failed.
Proof.
  intros Hs.
  destruct (session !! "user") as [user|] eqn:Hu.
  2:{ rewrite (authenticate_user_no_user _ _ Hs Hu). simpl. auto. }
  destruct (session !! "_id") as [sid|] eqn:Hi.
  2:{ rewrite (authenticate_user_no_id _ _ _ Hs Hu Hi). simpl. auto. }
  destruct (authenticate_user_lookup st session user sid Hs Hu Hi) as (Hr & _).
  rewrite Hr.
  destruct (Sql.select_csrf_token (store st) sid) as [|t [|t2 l]]; auto.
  destruct (bool_decide _); auto.
Qed.

(** X16: Without a session object in the environment the KeyError for
    'beaker.session' leaves _authenticate_user uncaught, with nothing
    executed.  With one, the call never touches the cache, the store or
    the clock; the only statement it executes is the token query, and
    only when the session has both a user and an id; it writes the
    session's user into the request context before any validation, so
    the context names that user even when the call fails on the CSRF
    token; and when it raises HTTPUnauthorized, it is with one of its
    three messages. *)
Theorem authenticate_user_effects (st : State) :
  app_key_cache (snd (_authenticate_user st)) = app_key_cache st
  /\ store (snd (_authenticate_user st)) = store st
  /\ clock (snd (_authenticate_user st)) = clock st
  /\ (beaker_session (request st) = None ->
      _authenticate_user st = (Raise (KeyError "beaker.session"), st))
  /\ (forall session,
        beaker_session (request st) = Some session ->
        request (snd (_authenticate_user st))
        = match session !! "user" with
          | Some user => request (with_user user st)
          | None => request st
          end
        /\ sql_log (snd (_authenticate_user st))
           = match session !! "user", session !! "_id" with
             | Some _, Some sid => SelectCsrfToken sid :: sql_log st
             | _, _ => sql_log st
             end)
  /\ (forall title description challenges,
        fst (_authenticate_user st)
        = Raise (HTTPUnauthorized title description challenges) ->
        HTTPUnauthorized title description challenges = must_be_logged_in
        \/ HTTPUnauthorized title description challenges = csrf_token_missing
        \/ HTTPUnauthorized title description challenges
           = csrf_validation_failed).
Proof.
  assert (Hframe : app_key_cache (snd (_authenticate_user st)) = app_key_cache st
                   /\ store (snd (_authenticate_user st)) = store st
                   /\ clock (snd (_authenticate_user st)) = clock st).
  { unfold _authenticate_user. run.
    destruct (beaker_session (request st)) as [session|]; simpl; auto.
    destruct (session !! "user"); simpl; auto.
    destruct (session !! "_id"); simpl; auto.
    destruct (Sql.select_csrf_token (store st) s0) as [|t [|t2 l]]; simpl; auto.
    destruct (bool_decide _); simpl; auto. }
  destruct Hframe as (H1 & H2 & H3).
  split; [exact H1|]. split; [exact H2|]. split; [exact H3|].
  split; [apply authenticate_user_no_session|]. split.
  - intros session Hs.
    destruct (session !! "user") as [user|] eqn:Hu.
    2:{ rewrite (authenticate_user_no_user _ _ Hs Hu). simpl. auto. }
    destruct (session !! "_id") as [sid|] eqn:Hi.
    2:{ rewrite (authenticate_user_no_id _ _ _ Hs Hu Hi). simpl. auto. }
    destruct (authenticate_user_lookup st session user sid Hs Hu Hi)
      as (_ & Hreq & Hlog).
    split; [exact Hreq | exact Hlog].
  - intros t d c Hr.
    destruct (beaker_session (request st)) as [session|] eqn:Hs.
    + destruct (authenticate_user_outcomes st session Hs)
        as [H | [H | [H | H]]]; rewrite H in Hr; inversion Hr; auto.
    + rewrite (authenticate_user_no_session _ Hs) in Hr. discriminate.
Qed.

Lemma authenticate_user_effects_witness :
  context (request (snd (_authenticate_user
             (Demo.state 0 (Demo.session_request "s1" (Some "bad"))))))
    !! "user" = Some "alice"
  /\ fst (_authenticate_user
            (Demo.state 0 (Demo.session_request "s1" (Some "bad"))))
     = Raise csrf_validation_failed
  /\ _authenticate_user (Demo.state 0 Demo.plain_request)
     = (Raise (KeyError "beaker.session"), Demo.state 0 Demo.plain_request).
Proof.
  destruct (authenticate_user_effects
              (Demo.state 0 (Demo.session_request "s1" (Some "bad"))))
    as (_ & _ & _ & _ & H & _).
  destruct (H {[ "user" := "alice"; "_id" := "s1" ]} eq_refl) as (Hreq & _).
  destruct (authenticate_user_effects (Demo.state 0 Demo.plain_request))
    as (_ & _ & _ & Hnone & _).
  split; [|split].
  - rewrite Hreq. reflexivity.
  - reflexivity.
  - apply Hnone. reflexivity.
Defined.

(** ** The debug replacement of authenticate_user *)

Lemma test_wrapper_run st :
  authenticate_user_test_wrapper st
  = match _authenticate_user st with
    | (Raise (HTTPUnauthorized _ _ _), st') =>
        (Return tt,
         with_request
           (set_context (<["user":="test_user"]> (context (request st')))
              (request st')) st')
    | r => r
    end.
Proof.
  unfold authenticate_user_test_wrapper, try_except.
  destruct (_authenticate_user st) as [[u|e] st']; [reflexivity|].
  destruct e; reflexivity.
Qed.

Lemma test_wrapper_on_unauthorized st t d c :
  fst (_authenticate_user st) = Raise (HTTPUnauthorized t d c) ->
  fst (authenticate_user_test_wrapper st) = Return tt
  /\ context (request (snd (authenticate_user_test_wrapper st))) !! "user"
     = Some "test_user".
Proof.
  intros H. rewrite test_wrapper_run.
  destruct (_authenticate_user st) as [[u|e] st']; simpl in H; [discriminate|].
  inversion H; subst. simpl. split; [reflexivity | apply lookup_insert_eq].
Qed.

Lemma test_wrapper_on_return st :
  fst (_authenticate_user st) = Return tt ->
  authenticate_user_test_wrapper st = _authenticate_user st.
Proof.
  intros H. rewrite test_wrapper_run.
  destruct (_authenticate_user st) as [[u|e] st']; simpl in H;
    [reflexivity | discriminate].
Qed.

(** X17: The debug replacement of authenticate_user turns every
    HTTPUnauthorized of _authenticate_user into a return with
    context['user'] = 'test_user', which overwrites the user the session
    named: so a request whose CSRF header differs from the one stored
    token is let through as 'test_user'.  When _authenticate_user returns
    the replacement does the same, and any other exception passes
    through: without a session object the KeyError for 'beaker.session'
    still comes out. *)
Theorem test_wrapper_replaces_failures (st : State) :
  (fst (_authenticate_user st) = Return tt ->
   authenticate_user_test_wrapper st = _authenticate_user st)
  /\ (forall title description challenges,
        fst (_authenticate_user st)
        = Raise (HTTPUnauthorized title description challenges) ->
        fst (authenticate_user_test_wrapper st) = Return tt
        /\ context (request (snd (authenticate_user_test_wrapper st))) !! "user"
           = Some "test_user")
  /\ (forall e,
        fst (_authenticate_user st) = Raise e ->
        (forall title description challenges,
           e <> HTTPUnauthorized title description challenges) ->
        authenticate_user_test_wrapper st = _authenticate_user st)
  /\ (forall session user sid (token : option string),
        beaker_session (request st) = Some session ->
        session !! "user" = Some user ->
        session !! "_id" = Some sid ->
        Sql.select_csrf_token (store st) sid = [token] ->
        headers (request st) !! "X-CSRF-TOKEN" <> token ->
        fst (authenticate_user_test_wrapper st) = Return tt
        /\ context (request (snd (authenticate_user_test_wrapper st))) !! "user"
           = Some "test_user")
  /\ (beaker_session (request st) = None ->
      authenticate_user_test_wrapper st
      = (Raise (KeyError "beaker.session"), st)).
Proof.
  split; [apply test_wrapper_on_return|].
  split; [apply test_wrapper_on_unauthorized|]. split; [|split].
  - intros e He Hne. rewrite test_wrapper_run.
    destruct (_authenticate_user st) as [[u|e'] st']; simpl in He;
      [discriminate|].
    inversion He; subst. destruct e; try reflexivity.
    exfalso. eapply Hne. reflexivity.
  - intros session user sid token Hs Hu Hi Ht Hh.
    destruct (authenticate_user_lookup st session user sid Hs Hu Hi)
      as (Hr & _).
    rewrite Ht in Hr. rewrite bool_decide_eq_false_2 in Hr by exact Hh.
    apply (test_wrapper_on_unauthorized st _ _ _ Hr).
  - intros Hs. rewrite test_wrapper_run.
    rewrite (authenticate_user_no_session _ Hs). reflexivity.
Qed.

Lemma test_wrapper_replaces_failures_witness :
  fst (authenticate_user_test_wrapper
         (Demo.state 0 (Demo.session_request "s1" (Some "bad"))))
  = Return tt
  /\ context (request (snd (authenticate_user_test_wrapper
                (Demo.state 0 (Demo.session_request "s1" (Some "bad"))))))
       !! "user" = Some "test_user".
Proof.
  destruct (test_wrapper_replaces_failures
              (Demo.state 0 (Demo.session_request "s1" (Some "bad"))))
    as (_ & _ & _ & H & _).
  apply (H {[ "user" := "alice"; "_id" := "s1" ]} "alice" "s1" (Some "tok"));
    try reflexivity.
  discriminate.
Defined.

(** ** The login_required wrapper: what reaches the handler *)

Lemma first_request_none i args :
  first_request i args = None <-> Forall (fun a => a <> ArgRequest) args.
Proof.
  revert i. induction args as [|a args IH]; intros i; simpl.
  - split; auto.
  - destruct a; simpl.
    + split; [discriminate|]. intros H. inversion H; subst. congruence.
    + rewrite IH. split.
      * intros H. constructor; [discriminate | exact H].
      * intros H. inversion H. assumption.
Qed.

Lemma login_required_without_request_holds
    {R : Type} (authenticate_user : Py unit) (function : list Arg -> Py R)
    (args : list Arg) (st : State) :
  Forall (fun a => a <> ArgRequest) args ->
  login_required authenticate_user function args st
  = (Raise (UnboundLocalError "idx"), st).
Proof.
  intros H. apply (first_request_none 0) in H.
  unfold login_required. rewrite H. reflexivity.
Qed.

(** X18: When none of the positional arguments is a request, the wrapper's
    loop leaves [idx] unbound and the call ends in UnboundLocalError:
    no authentication is attempted and the handler is not called,
    whatever the binding of authenticate_user. *)
Theorem login_required_without_request
    {R : Type} (authenticate_user : Py unit) (function : list Arg -> Py R)
    (args : list Arg) (st : State) :
  Forall (fun a => a <> ArgRequest) args ->
  login_required authenticate_user function args st
  = (Raise (UnboundLocalError "idx"), st).
Proof.
  exact (login_required_without_request_holds authenticate_user function args
           st).
Qed.

Lemma login_required_without_request_witness :
  login_required _authenticate_user (fun _ => ret tt)
    [ArgOther "self"; ArgOther "resp"] (Demo.state 0 Demo.plain_request)
  = (Raise (UnboundLocalError "idx"), Demo.state 0 Demo.plain_request).
Proof.
  apply (login_required_without_request _authenticate_user (fun _ => ret tt)
           [ArgOther "self"; ArgOther "resp"]).
  repeat constructor; discriminate.
Defined.

Lemma login_required_run {R} au (f : list Arg -> Py R) args st i :
  first_request 0 args = Some i ->
  login_required au f args st =
  through
    (match (match headers (request st) !! "AUTHORIZATION" with
            | Some token =>
                if truthy token then authenticate_application token else au
            | None => au
            end) st with
     | (Return _, st') => Passed st'
     | (Raise e, st') => Refused e st'
     end)
    (f args).
Proof.
  intros Hi. unfold login_required. rewrite Hi.
  unfold bind at 1 2. simpl. unfold get_header, ret. simpl.
  unfold bind.
  destruct ((match headers (request st) !! "AUTHORIZATION" with
             | Some token =>
                 if truthy token then authenticate_application token else au
             | None => au
             end) st) as [[u|e] st']; reflexivity.
Qed.

(** X19: With the module's own authenticate_user, a handler wrapped by
    login_required runs only on an identified request: whether the
    wrapper refuses the call, and in which state it passes it on, does
    not depend on the handler, and whenever it passes the call on, the
    request context names an application or a user. *)
Theorem login_required_passes_only_identified_requests
    (args : list Arg) (st : State) :
  exists gate : Gate,
    (forall (R : Type) (function : list Arg -> Py R),
       login_required _authenticate_user function args st
       = through gate (function args))
    /\ match gate with
       | Passed st' => identified st'
       | Refused _ _ => True
       end.
Proof.
  destruct (first_request 0 args) as [i|] eqn:Hi.
  2:{ exists (Refused (UnboundLocalError "idx") st). split; [|exact I].
      intros R f. apply login_required_without_request_holds.
      apply (first_request_none 0), Hi. }
  set (auth := match headers (request st) !! "AUTHORIZATION" with
               | Some token =>
                   if truthy token then authenticate_application token
                   else _authenticate_user
               | None => _authenticate_user
               end).
  exists (match auth st with
          | (Return _, st') => Passed st'
          | (Raise e, st') => Refused e st'
          end).
  split.
  - intros R f. apply (login_required_run _ f args st i Hi).
  - assert (Hu : forall s', fst (_authenticate_user st) = Return tt ->
                            snd (_authenticate_user st) = s' -> identified s').
    { intros s' Hret <-. right.
      destruct (authenticate_user_sound_holds st Hret)
        as (se & u & sid & tk & _ & _ & _ & _ & _ & Hc).
      rewrite Hc. eauto. }
    assert (Ha : forall tok s',
              fst (authenticate_application tok st) = Return tt ->
              snd (authenticate_application tok st) = s' -> identified s').
    { intros tok s' Hret <-. left.
      destruct (authenticate_application_sound_holds st tok Hret)
        as (a & d & k & p & q & b & _ & _ & _ & _ & _ & Hc & _).
      rewrite Hc. eauto. }
    unfold auth.
    destruct (headers (request st) !! "AUTHORIZATION") as [tok|].
    + destruct (truthy tok).
      * destruct (authenticate_application tok st) as [[[]|e] s'] eqn:E;
          [|exact I]. apply (Ha tok s'); rewrite E; reflexivity.
      * destruct (_authenticate_user st) as [[[]|e] s'] eqn:E; [|exact I].
        apply (Hu s'); rewrite ?E; reflexivity.
    + destruct (_authenticate_user st) as [[[]|e] s'] eqn:E; [|exact I].
      apply (Hu s'); rewrite ?E; reflexivity.
Qed.

(** X20: A request authenticated by its digest passes every authorization
    check made by its handler: with an AUTHORIZATION header signed for
    the server's window or the one before, for an application the store
    resolves, a handler that calls any of the four checks returns, and
    the only statements executed are those of the key lookup. *)
Theorem signed_request_passes_every_check
    (authenticate_user : Py unit) (args : list Arg) (st : State)
    (app key path qs body : string) (signing_time : Z)
    (user team : string) (calendar_user : option string) (team_id : Z) :
  is_Some (first_request 0 args) ->
  occurs ":" app = false ->
  resolves_key st app key ->
  request_inputs st path qs body ->
  headers (request st) !! "AUTHORIZATION"
  = Some (Spec.signature_header app
            (Spec.sign key (Spec.window signing_time) (method (request st))
               (Spec.canonical_path path qs) body)) ->
  Spec.window (clock st) = Spec.window signing_time
  \/ Spec.window (clock st) = Spec.window signing_time + 1 ->
  forall check : Py unit,
    check = check_user_auth user \/ check = check_team_auth team
    \/ check = check_calendar_auth team calendar_user
    \/ check = check_calendar_auth_by_id team_id ->
    fst (login_required authenticate_user (fun _ => check) args st) = Return tt
    /\ forall q, In q (sql_log (snd (login_required authenticate_user
                                       (fun _ => check) args st))) ->
                 q = SelectApplicationKey app \/ In q (sql_log st).
Proof.
  intros [i Hi] Hcolon Hkey Hin Hh Hw check Hcheck.
  rewrite (login_required_run _ _ args st i Hi). rewrite Hh.
  change (truthy (Spec.signature_header app _)) with true. cbn iota.
  set (tok := Spec.signature_header app
                (Spec.sign key (Spec.window signing_time) (method (request st))
                   (Spec.canonical_path path qs) body)).
  destruct (signature_header_parts app
              (Spec.sign key (Spec.window signing_time) (method (request st))
                 (Spec.canonical_path path qs) body) Hcolon) as [Hp Hs].
  fold tok in Hp, Hs.
  destruct (authenticate_application_resolved _ _ _ _ _ _ _ _ Hp Hs Hin Hkey)
    as (st' & Hrun & Hclock & Hreq).
  assert (Hacc : accepted_as app (authenticate_application tok st)).
  { rewrite Hrun. apply verdict_accepts. rewrite Hclock.
    unfold Spec.window in Hw.
    destruct Hw as [Hw | Hw]; [left | right];
      apply is_client_digest_valid_spec; unfold Spec.window; f_equal; lia. }
  destruct Hacc as [Hret Hctx].
  destruct (authenticate_application tok st) as [[[]|e] s1] eqn:E;
    simpl in Hret, Hctx; [|discriminate]. simpl.
  assert (Happ : is_Some (context (request s1) !! "app")) by (rewrite Hctx; eauto).
  assert (Hlog : forall q, In q (sql_log s1) ->
                   q = SelectApplicationKey app \/ In q (sql_log st)).
  { assert (s1 = snd (authenticate_application tok st)) as -> by (rewrite E; reflexivity).
    destruct Hkey as [Hc | (Hc & rest & Hr)].
    - destruct (cached_no_lookup tok st app _ Hs) as [-> _]; [rewrite Hc; eauto|].
      auto.
    - rewrite (authenticate_application_run _ _ _ _ _ Hp Hin).
      unfold try_except. rewrite (try_miss_found _ _ _ _ _ _ _ _ _ Hs Hc Hr).
      fold (after_lookup app key st).
      fold (try_except (verdict app
              (Spec.sign key (Spec.window signing_time) (method (request st))
                 (Spec.canonical_path path qs) body) key (method (request st))
              (Spec.canonical_path path qs) body)
              caught_by_digest_handler (raise wrong_digest)
              (after_lookup app key st)).
      rewrite try_except_verdict.
      destruct (verdict_frame app
                  (Spec.sign key (Spec.window signing_time) (method (request st))
                     (Spec.canonical_path path qs) body) key
                  (method (request st)) (Spec.canonical_path path qs) body
                  (after_lookup app key st)) as [_ ->].
      simpl. intros q [<- | Hq]; auto. }
  destruct Hcheck as [-> | [-> | [-> | ->]]].
  - rewrite (check_user_auth_app user s1 Happ). auto.
  - rewrite (check_team_auth_app team s1 Happ). auto.
  - rewrite (check_calendar_auth_app team calendar_user s1 Happ). auto.
  - rewrite (check_calendar_auth_by_id_app team_id s1 Happ). auto.
Qed.

Lemma signed_request_passes_every_check_witness :
  fst (login_required _authenticate_user (fun _ => check_team_auth "sre")
         [ArgOther "self"; ArgRequest; ArgOther "resp"]
         (Demo.state (Demo.signed_at + 4)
            (Demo.req None {[ "AUTHORIZATION" := Demo.svc_a_header ]} ∅)))
  = Return tt.
Proof.
  assert (Hreq : is_Some (first_request 0
                            [ArgOther "self"; ArgRequest; ArgOther "resp"])).
  { exists 1%nat. reflexivity. }
  assert (Hk : resolves_key
                 (Demo.state (Demo.signed_at + 4)
                    (Demo.req None {[ "AUTHORIZATION" := Demo.svc_a_header ]} ∅))
                 "svc-a" "K").
  { right. split; [reflexivity|]. exists []. reflexivity. }
  assert (Hin : request_inputs
                  (Demo.state (Demo.signed_at + 4)
                     (Demo.req None {[ "AUTHORIZATION" := Demo.svc_a_header ]} ∅))
                  "/widgets/42" EmptyString EmptyString) by (repeat split).
  apply (signed_request_passes_every_check _authenticate_user
           [ArgOther "self"; ArgRequest; ArgOther "resp"]
           (Demo.state (Demo.signed_at + 4)
              (Demo.req None {[ "AUTHORIZATION" := Demo.svc_a_header ]} ∅))
           "svc-a" "K" "/widgets/42" EmptyString EmptyString Demo.signed_at
           "alice" "sre" None 10 Hreq eq_refl Hk Hin eq_refl
           (or_introl eq_refl) (check_team_auth "sre")).
  right. left. reflexivity.
Defined.

(** ** Start-up: loading the application keys *)

Lemma store_application_keys_run tbl st :
  fst (store_application_keys
         (map (fun a => (application_name a, application_key a)) tbl) st)
  = Return tt
  /\ store (snd (store_application_keys
                   (map (fun a => (application_name a, application_key a)) tbl)
                   st)) = store st
  /\ clock (snd (store_application_keys
                   (map (fun a => (application_name a, application_key a)) tbl)
                   st)) = clock st
  /\ request (snd (store_application_keys
                     (map (fun a => (application_name a, application_key a)) tbl)
                     st)) = request st
  /\ sql_log (snd (store_application_keys
                     (map (fun a => (application_name a, application_key a)) tbl)
                     st)) = sql_log st
  /\ forall app,
       app_key_cache
         (snd (store_application_keys
                 (map (fun a => (application_name a, application_key a)) tbl)
                 st)) !! app
       = match last (map application_key
                       (List.filter
                          (fun a => String.eqb (application_name a) app) tbl))
         with
         | Some key => Some key
         | None => app_key_cache st !! app
         end.
Proof.
  revert st. induction tbl as [|a tbl IH]; intros st.
  - simpl. repeat split; reflexivity.
  - simpl. unfold bind, cache_setitem. simpl.
    destruct (IH (with_cache (<[application_name a:=application_key a]>
                                (app_key_cache st)) st))
      as (H1 & H2 & H3 & H4 & H5 & H6).
    split; [exact H1|]. split; [exact H2|]. split; [exact H3|].
    split; [exact H4|]. split; [exact H5|].
    intros app. rewrite H6. simpl.
    destruct (String.eqb_spec (application_name a) app) as [E | E]; simpl.
    + destruct (map application_key (List.filter _ tbl)) as [|y keys].
      * simpl. rewrite E. apply lookup_insert_eq.
      * change (last (application_key a :: y :: keys)) with (last (y :: keys)).
        destruct (last (y :: keys)) eqn:El; [reflexivity|].
        apply last_None in El. discriminate.
    + destruct (last _); [reflexivity|]. apply lookup_insert_ne, E.
Qed.

Lemma load_application_keys_result_holds (st : State) :
  fst (load_application_keys st) = Return tt
  /\ sql_log (snd (load_application_keys st)) = SelectApplications :: sql_log st
  /\ store (snd (load_application_keys st)) = store st
  /\ clock (snd (load_application_keys st)) = clock st
  /\ request (snd (load_application_keys st)) = request st
  /\ (forall app,
        app_key_cache (snd (load_application_keys st)) !! app
        = match last_key (store st) app with
          | Some key => Some key
          | None => app_key_cache st !! app
          end)
  /\ (tbl_application (store st) = [] ->
      app_key_cache (snd (load_application_keys st)) = app_key_cache st).
Proof.
  unfold load_application_keys, bind, cursor_execute, select_applications.
  simpl.
  destruct (store_application_keys_run (tbl_application (store st))
              (with_log (SelectApplications :: sql_log st) st))
    as (H1 & H2 & H3 & H4 & H5 & H6).
  destruct (store_application_keys _ _) as [[[]|e] s'];
    simpl in *; [|discriminate].
  repeat split; auto.
  intros Hempty. apply map_eq. intros app. rewrite H6, Hempty. reflexivity.
Qed.

(** X21: The cache loading of init executes one statement, changes
    neither the store, the clock nor the request, and leaves in the cache,
    for every application name, the key of the last row the store holds
    for it; names without a row keep the entry they had, so an empty
    application table leaves the cache as it was. *)
Theorem load_application_keys_result (st : State) :
  sql_log (snd (load_application_keys st)) = SelectApplications :: sql_log st
  /\ store (snd (load_application_keys st)) = store st
  /\ clock (snd (load_application_keys st)) = clock st
  /\ request (snd (load_application_keys st)) = request st
  /\ (forall app,
        app_key_cache (snd (load_application_keys st)) !! app
        = match last_key (store st) app with
          | Some key => Some key
          | None => app_key_cache st !! app
          end)
  /\ (tbl_application (store st) = [] ->
      app_key_cache (snd (load_application_keys st)) = app_key_cache st).
Proof. exact (proj2 (load_application_keys_result_holds st)). Qed.

Lemma load_application_keys_result_witness :
  app_key_cache (snd (load_application_keys
                        (Demo.state 0 Demo.plain_request))) !! "svc-a"
  = Some "K"
  /\ app_key_cache (snd (load_application_keys
                           (Demo.state 0 Demo.plain_request))) !! "ghost"
     = None
  /\ sql_log (snd (load_application_keys (Demo.state 0 Demo.plain_request)))
     = [SelectApplications].
Proof.
  destruct (load_application_keys_result (Demo.state 0 Demo.plain_request))
    as (Hlog & _ & _ & _ & Hc & _).
  split; [|split].
  - rewrite (Hc "svc-a"). reflexivity.
  - rewrite (Hc "ghost"). reflexivity.
  - exact Hlog.
Defined.

(** X22: After the cache loading, a header that names an application with at
    least one row in the store is verified without any statement: the
    key is in the cache, and it is the key of the last row. *)
Theorem loaded_application_needs_no_lookup
    (st : State) (auth_token app digest : string) :
  split1 ":" (slice_from 5 auth_token) = [app; digest] ->
  Sql.select_application_key (store st) app <> [] ->
  sql_log (snd (authenticate_application auth_token
                  (snd (load_application_keys st))))
  = sql_log (snd (load_application_keys st))
  /\ exists key,
       last_key (store st) app = Some key
       /\ app_key_cache (snd (authenticate_application auth_token
                                (snd (load_application_keys st)))) !! app
          = Some key.
Proof.
  intros Hs Hrows.
  destruct (load_application_keys_result_holds st) as (_ & _ & _ & _ & _ & Hc & _).
  destruct (last_key (store st) app) as [key|] eqn:El.
  2:{ unfold last_key in El. apply last_None in El. contradiction. }
  assert (Hk : app_key_cache (snd (load_application_keys st)) !! app = Some key).
  { rewrite Hc, El. reflexivity. }
  split.
  - apply (cached_no_lookup _ _ app digest Hs). rewrite Hk. eauto.
  - exists key. split; [reflexivity|]. apply cache_entries_kept, Hk.
Qed.

Lemma loaded_application_needs_no_lookup_witness :
  sql_log (snd (authenticate_application Demo.svc_a_header
                  (snd (load_application_keys
                          (Demo.state Demo.signed_at Demo.plain_request)))))
  = [SelectApplications]
  /\ exists key,
       last_key Demo.db "svc-a" = Some key
       /\ app_key_cache (snd (authenticate_application Demo.svc_a_header
                  (snd (load_application_keys
                          (Demo.state Demo.signed_at Demo.plain_request)))))
            !! "svc-a" = Some key.
Proof.
  apply (loaded_application_needs_no_lookup
           (Demo.state Demo.signed_at Demo.plain_request) Demo.svc_a_header
           "svc-a"
           (Spec.sign "K" (Spec.window Demo.signed_at) "GET" "/widgets/42"
              EmptyString)).
  - reflexivity.
  - discriminate.
Defined.

Lemma unique_name_one_row tbl app :
  NoDup (map application_name tbl) ->
  (length (List.filter (fun a => String.eqb (application_name a) app) tbl)
   <= 1)%nat.
Proof.
  induction tbl as [|a tbl IH]; simpl; intros Hnd; [lia|].
  inversion Hnd as [|x l Hnotin Hnd']; subst.
  destruct (String.eqb_spec (application_name a) app) as [E | E].
  - assert (List.filter (fun a => String.eqb (application_name a) app) tbl = [])
      as ->.
    { destruct (List.filter _ tbl) as [|b l] eqn:Ef; [reflexivity|]. exfalso.
      assert (Hb : In b (List.filter
                (fun a => String.eqb (application_name a) app) tbl))
        by (rewrite Ef; left; reflexivity).
      apply filter_In in Hb. destruct Hb as [Hb Hn].
      apply String.eqb_eq in Hn. apply Hnotin.
      apply list_elem_of_In. apply in_map_iff. exists b. split; [congruence | exact Hb]. }
    simpl. lia.
  - apply IH, Hnd'.
Qed.

(** X23: Loading the cache at start-up changes no decision: when application
    names are unique in the store and every key already cached is one the
    store holds, authenticate_application gives the same result after
    the loading as it gives when it looks the key up itself. *)
Theorem loading_changes_no_decision
    (st : State) (auth_token path qs body : string) :
  NoDup (map application_name (tbl_application (store st))) ->
  cache_reflects_store st ->
  request_inputs st path qs body ->
  fst (authenticate_application auth_token (snd (load_application_keys st)))
  = fst (authenticate_application auth_token st).
Proof.
  intros Hnd Hinv Hin.
  destruct (load_application_keys_result_holds st) as (_ & _ & Hs & Hc & Hr & Hk & _).
  assert (Hin1 : request_inputs (snd (load_application_keys st)) path qs body).
  { unfold request_inputs. rewrite Hr. exact Hin. }
  rewrite (authenticate_application_outcome _ _ _ _ _ Hin1).
  rewrite (authenticate_application_outcome _ _ _ _ _ Hin).
  rewrite Hs, Hc, Hr. unfold digest_outcome.
  destruct (negb _); [reflexivity|].
  destruct (split1 ":" (slice_from 5 auth_token)) as [|a [|d [|]]];
    try reflexivity.
  rewrite Hk. unfold last_key.
  pose proof (unique_name_one_row _ a Hnd) as Hlen.
  pose proof (Hinv a) as Hin_cache.
  unfold Sql.select_application_key in *.
  destruct (List.filter _ (tbl_application (store st))) as [|x [|y l]];
    simpl in *.
  - destruct (app_key_cache st !! a) as [k|]; [|reflexivity].
    destruct (Hin_cache k eq_refl).
  - destruct (app_key_cache st !! a) as [k|]; [|reflexivity].
    destruct (Hin_cache k eq_refl) as [<- | []]. reflexivity.
  - lia.
Qed.

Lemma loading_changes_no_decision_witness :
  fst (authenticate_application Demo.svc_a_header
         (snd (load_application_keys
                 (Demo.state Demo.signed_at Demo.plain_request))))
  = fst (authenticate_application Demo.svc_a_header
           (Demo.state Demo.signed_at Demo.plain_request)).
Proof.
  apply (loading_changes_no_decision
           (Demo.state Demo.signed_at Demo.plain_request) Demo.svc_a_header
           "/widgets/42" EmptyString EmptyString).
  - repeat constructor; simpl; intros H; inversion H; subst;
      repeat match goal with
             | H : _ ∈ _ :: _ |- _ => inversion H; clear H; subst
             | H : _ ∈ [] |- _ => inversion H
             end.
  - intros app key H. simpl in H. rewrite lookup_empty in H. discriminate.
  - repeat split.
Defined.

(** ** Start-up: what init rebinds *)

(** X24: Debug mode switches authorization off and session failures off, but
    not digest authentication.  After init with the debug entry set (and
    whether or not the rest of init succeeds), check_user_auth,
    check_team_auth and check_calendar_auth_by_id return True without
    reading the request or the store, check_calendar_auth does the same
    when the user is omitted or given by keyword and raises TypeError when
    it is given as a third positional argument, and debug_only hands back
    the function it is given.  When the docs entry is not set, a call
    guarded by login_required on a request with no, or an empty,
    AUTHORIZATION header reaches its handler, with a user in the
    context, whenever _authenticate_user returns or raises
    HTTPUnauthorized, while a request with a non-empty AUTHORIZATION
    header is treated exactly as without debug mode.  When the docs
    entry is set as well, the guard is gone and every call reaches its
    handler. *)
Theorem init_debug_keeps_digest_authentication
    {M : Type} (load_authenticator : string -> Config -> Result M)
    (config : Config) (p : Process M) :
  config_debug config = true ->
  g_login_required (proc_globals p) = Guarded ->
  let g := proc_globals (snd (init load_authenticator config p)) in
  (forall (user team : string) (team_id : Z) (st : State),
     g_check_user_auth g user st = (Return PyTrue, st)
     /\ g_check_team_auth g team st = (Return PyTrue, st)
     /\ g_check_calendar_auth g team UserOmitted st = (Return PyTrue, st)
     /\ (forall u,
           g_check_calendar_auth g team (UserKeyword u) st = (Return PyTrue, st))
     /\ (forall u,
           g_check_calendar_auth g team (UserPositional u) st
           = (Raise TypeError, st))
     /\ g_check_calendar_auth_by_id g team_id st = (Return PyTrue, st))
  /\ (forall (R : Type) (function : list Arg -> Py R),
        g_debug_only g R function = function)
  /\ (config_docs config = false ->
      (forall (R : Type) (function : list Arg -> Py R) (args : list Arg)
              (st : State),
         is_Some (first_request 0 args) ->
         headers (request st) !! "AUTHORIZATION" = None
         \/ headers (request st) !! "AUTHORIZATION" = Some EmptyString ->
         fst (_authenticate_user st) = Return tt
         \/ (exists title description challenges,
               fst (_authenticate_user st)
               = Raise (HTTPUnauthorized title description challenges)) ->
         exists st',
           call_login_required g function args st = function args st'
           /\ is_Some (context (request st') !! "user"))
      /\ (forall (R : Type) (function : list Arg -> Py R) (args : list Arg)
                 (st : State) (token : string),
            headers (request st) !! "AUTHORIZATION" = Some token ->
            token <> EmptyString ->
            call_login_required g function args st
            = login_required _authenticate_user function args st))
  /\ (config_docs config = true ->
      forall (R : Type) (function : list Arg -> Py R) (args : list Arg),
        call_login_required g function args = function args).
Proof.
  intros Hd Hg g.
  assert (Hglob : exists m l,
    g = set_login_required l (set_auth_manager m (debug_globals (proc_globals p)))
    /\ (config_docs config = false -> l = Guarded)
    /\ (config_docs config = true -> l = Unguarded)).
  { unfold g, init. rewrite Hd.
    destruct (config_docs config) eqn:Hdocs; simpl.
    - exists (g_auth_manager (proc_globals p)), Unguarded.
      split; [reflexivity|]. split; [discriminate | reflexivity].
    - destruct (config_module config) as [name|]; simpl.
      + destruct (load_authenticator name config) as [m|e]; simpl.
        * exists (Some m), (g_login_required (proc_globals p)).
          split; [reflexivity|]. split; [intros _; exact Hg | discriminate].
        * exists (g_auth_manager (proc_globals p)),
                 (g_login_required (proc_globals p)).
          split; [reflexivity|]. split; [intros _; exact Hg | discriminate].
      + exists (g_auth_manager (proc_globals p)),
               (g_login_required (proc_globals p)).
        split; [reflexivity|]. split; [intros _; exact Hg | discriminate]. }
  destruct Hglob as (m & l & Hgl & Hfalse & Htrue). clearbody g. subst g.
  split; [intros; repeat split|]. split; [reflexivity|]. split.
  - intros Hdocs. rewrite (Hfalse Hdocs). split.
    + intros R f args st [i Hi] Hh Hout.
      unfold call_login_required. simpl.
      rewrite (login_required_run _ f args st i Hi).
      assert (Hauth : (match headers (request st) !! "AUTHORIZATION" with
                       | Some token =>
                           if truthy token then authenticate_application token
                           else authenticate_user_test_wrapper
                       | None => authenticate_user_test_wrapper
                       end) = authenticate_user_test_wrapper).
      { destruct Hh as [-> | ->]; reflexivity. }
      rewrite Hauth.
      assert (Hw : fst (authenticate_user_test_wrapper st) = Return tt
                   /\ is_Some (context (request
                        (snd (authenticate_user_test_wrapper st))) !! "user")).
      { destruct Hout as [Hret | (t & d & c & Hr)].
        - rewrite (test_wrapper_on_return st Hret). split; [exact Hret|].
          destruct (authenticate_user_sound_holds st Hret)
            as (se & u & sid & tk & _ & _ & _ & _ & _ & Hc).
          rewrite Hc. eauto.
        - destruct (test_wrapper_on_unauthorized st t d c Hr) as [H1 H2].
          split; [exact H1|]. rewrite H2. eauto. }
      destruct Hw as [Hret Huser].
      destruct (authenticate_user_test_wrapper st) as [[[]|e] st'];
        simpl in Hret, Huser; [|discriminate].
      exists st'. split; [reflexivity | exact Huser].
    + intros R f args st token Hh Hne.
      unfold call_login_required. simpl.
      destruct (first_request 0 args) as [i|] eqn:Hi.
      * rewrite !(login_required_run _ f args st i Hi). rewrite Hh.
        destruct token; [congruence|]. reflexivity.
      * apply (first_request_none 0) in Hi.
        rewrite !(login_required_without_request_holds _ f args st Hi).
        reflexivity.
  - intros Hdocs R f args. rewrite (Htrue Hdocs). reflexivity.
Qed.

Lemma init_debug_keeps_digest_authentication_witness :
  fst (call_login_required
         (proc_globals
            (snd (init (fun _ _ => Return tt)
                    {| config_debug := true; config_docs := false;
                       config_module := Some "oncall.auth.modules.debug" |}
                    {| proc_globals := module_globals; proc_routes := [];
                       proc_state := Demo.state 0 Demo.plain_request |})))
         (fun _ => check_team_auth "sre")
         [ArgRequest]
         (Demo.state 0
            (Demo.req None {[ "AUTHORIZATION" := "hmac svc-a:forged" ]} ∅)))
  = Raise wrong_digest
  /\ fst (call_login_required
            (proc_globals
               (snd (init (fun _ _ => Return tt)
                       {| config_debug := true; config_docs := true;
                          config_module := None |}
                       {| proc_globals := module_globals; proc_routes := [];
                          proc_state := Demo.state 0 Demo.plain_request |})))
            (fun _ => ret tt)
            [ArgRequest]
            (Demo.state 0
               (Demo.req None {[ "AUTHORIZATION" := "hmac svc-a:forged" ]} ∅)))
     = Return tt.
Proof.
  split.
  - destruct (init_debug_keeps_digest_authentication (fun _ _ => Return tt)
                {| config_debug := true; config_docs := false;
                   config_module := Some "oncall.auth.modules.debug" |}
                {| proc_globals := module_globals; proc_routes := [];
                   proc_state := Demo.state 0 Demo.plain_request |}
                eq_refl eq_refl) as (_ & _ & Hprod & _).
    destruct (Hprod eq_refl) as (_ & H).
    assert (Hh : headers (request (Demo.state 0
                   (Demo.req None {[ "AUTHORIZATION" := "hmac svc-a:forged" ]} ∅)))
                 !! "AUTHORIZATION" = Some "hmac svc-a:forged") by reflexivity.
    rewrite (H unit (fun _ => check_team_auth "sre") [ArgRequest]
               (Demo.state 0
                  (Demo.req None {[ "AUTHORIZATION" := "hmac svc-a:forged" ]} ∅))
               "hmac svc-a:forged" Hh); [|discriminate].
    vm_compute. reflexivity.
  - destruct (init_debug_keeps_digest_authentication (fun _ _ => Return tt)
                {| config_debug := true; config_docs := true;
                   config_module := None |}
                {| proc_globals := module_globals; proc_routes := [];
                   proc_state := Demo.state 0 Demo.plain_request |}
                eq_refl eq_refl) as (_ & _ & _ & Hdocs).
    rewrite (Hdocs eq_refl unit (fun _ => ret tt) [ArgRequest]).
    reflexivity.
Defined.

(** X25: What init leaves behind.  With the docs entry set it executes no
    statement, leaves the state as it was, unbinds the guard (a handler
    decorated with login_required runs on any request, unauthenticated)
    and adds the two routes.  Without it, the cache is loaded first, so
    it is loaded even when init then fails: a configuration without
    'module' ends in KeyError, and a failure of the authenticator comes
    out as it is, in both cases with the routes not added and the guard
    still bound; only when the authenticator is built are the routes
    added and the manager set. *)
Theorem init_effects
    {M : Type} (load_authenticator : string -> Config -> Result M)
    (config : Config) (p : Process M) :
  (config_docs config = true ->
   fst (init load_authenticator config p) = Return tt
   /\ proc_state (snd (init load_authenticator config p)) = proc_state p
   /\ proc_routes (snd (init load_authenticator config p))
      = add_routes (proc_routes p)
   /\ forall (R : Type) (function : list Arg -> Py R) (args : list Arg),
        call_login_required
          (proc_globals (snd (init load_authenticator config p))) function args
        = function args)
  /\ (config_docs config = false ->
      proc_state (snd (init load_authenticator config p))
      = snd (load_application_keys (proc_state p))
      /\ g_login_required (proc_globals (snd (init load_authenticator config p)))
         = g_login_required (proc_globals p)
      /\ (config_module config = None ->
          fst (init load_authenticator config p) = Raise (KeyError "module")
          /\ proc_routes (snd (init load_authenticator config p))
             = proc_routes p)
      /\ (forall name e,
            config_module config = Some name ->
            load_authenticator name config = Raise e ->
            fst (init load_authenticator config p) = Raise e
            /\ proc_routes (snd (init load_authenticator config p))
               = proc_routes p)
      /\ (forall name manager,
            config_module config = Some name ->
            load_authenticator name config = Return manager ->
            fst (init load_authenticator config p) = Return tt
            /\ proc_routes (snd (init load_authenticator config p))
               = add_routes (proc_routes p)
            /\ g_auth_manager
                 (proc_globals (snd (init load_authenticator config p)))
               = Some manager)).
Proof.
  split.
  - intros Hdocs. unfold init. rewrite Hdocs. simpl.
    repeat split; reflexivity.
  - intros Hdocs. unfold init. rewrite Hdocs.
    destruct (config_module config) as [name|] eqn:Hm.
    + destruct (load_authenticator name config) as [m|e] eqn:Hl; simpl.
      * split; [reflexivity|]. split; [destruct (config_debug config); reflexivity|].
        split; [discriminate|]. split.
        -- intros n e Hn He. inversion Hn; subst. congruence.
        -- intros n m' Hn Hm'. inversion Hn; subst.
           rewrite Hl in Hm'. inversion Hm'; subst. repeat split.
      * split; [reflexivity|]. split; [destruct (config_debug config); reflexivity|].
        split; [discriminate|]. split.
        -- intros n e' Hn He. inversion Hn; subst.
           rewrite Hl in He. inversion He; subst. split; reflexivity.
        -- intros n m' Hn Hm'. inversion Hn; subst. congruence.
    + simpl. split; [reflexivity|].
      split; [destruct (config_debug config); reflexivity|].
      split; [intros _; split; reflexivity|].
      split; intros; discriminate.
Qed.

Lemma init_effects_witness :
  fst (init (fun _ _ => Return tt)
         {| config_debug := false; config_docs := false;
            config_module := None |}
         {| proc_globals := module_globals; proc_routes := [];
            proc_state := Demo.state 0 Demo.plain_request |})
  = Raise (KeyError "module")
  /\ app_key_cache
       (proc_state
          (snd (init (fun _ _ => Return tt)
                  {| config_debug := false; config_docs := false;
                     config_module := None |}
                  {| proc_globals := module_globals; proc_routes := [];
                     proc_state := Demo.state 0 Demo.plain_request |})))
       !! "svc-a" = Some "K"
  /\ proc_routes
       (snd (init (fun _ _ => Return tt)
               {| config_debug := false; config_docs := true;
                  config_module := None |}
               {| proc_globals := module_globals; proc_routes := [];
                  proc_state := Demo.state 0 Demo.plain_request |}))
     = [("/login", "login"); ("/logout", "logout")].
Proof.
  destruct (init_effects (fun _ _ => Return tt)
              {| config_debug := false; config_docs := false;
                 config_module := None |}
              {| proc_globals := module_globals; proc_routes := [];
                 proc_state := Demo.state 0 Demo.plain_request |})
    as (_ & Hprod).
  destruct (Hprod eq_refl) as (Hstate & _ & Hnone & _).
  destruct (Hnone eq_refl) as (Hraise & _).
  destruct (init_effects (fun _ _ => Return tt)
              {| config_debug := false; config_docs := true;
                 config_module := None |}
              {| proc_globals := module_globals; proc_routes := [];
                 proc_state := Demo.state 0 Demo.plain_request |})
    as (Hdocs & _).
  destruct (Hdocs eq_refl) as (_ & _ & Hroutes & _).
  split; [exact Hraise|]. split; [|exact Hroutes].
  rewrite Hstate. reflexivity.
Defined.

(** ** The superuser query *)

(** X1: When is_god returns, the value is True exactly when the user table
    has a row with the challenger's name and the god flag set, and the
    call has executed the one superuser query and changed nothing else. *)
Theorem is_god_result (st : State) (challenger : string) (answer : bool) :
  fst (is_god challenger st) = Return answer ->
  (answer = true <-> superuser (store st) challenger)
  /\ snd (is_god challenger st)
     = with_log (SelectGod challenger :: sql_log st) st.
Proof.
  unfold is_god. run. fold (god (store st) challenger).
  intros H. inversion H; subst. split; [|reflexivity].
  apply god_superuser.
Qed.

Lemma is_god_result_witness :
  superuser Demo.db "root"
  /\ ~ superuser Demo.db "alice"
  /\ sql_log (snd (is_god "root" (Demo.state 0 Demo.plain_request)))
     = [SelectGod "root"].
Proof.
  destruct (is_god_result (Demo.state 0 Demo.plain_request) "root" true
              eq_refl) as (Hroot & Hlog).
  destruct (is_god_result (Demo.state 0 Demo.plain_request) "alice" false
              eq_refl) as (Halice & _).
  split; [apply Hroot; reflexivity|]. split.
  - intros H. apply Halice in H. discriminate.
  - rewrite Hlog. reflexivity.
Defined.

(** ** A changed body *)

Lemma append_inj_l (s x y : string) : s +:+ x = s +:+ y -> x = y.
Proof.
  induction s as [|c s IH]; intros H; [exact H|].
  change (String c (s +:+ x) = String c (s +:+ y)) in H.
  inversion H. apply IH. assumption.
Qed.

Lemma format_text_body_inj w w' m p b b' :
  format_text w m p b = format_text w' m p b' -> b = b'.
Proof.
  intros H. pose proof (format_text_window_inj _ _ _ _ _ _ _ _ H) as <-.
  unfold format_text in H.
  repeat (apply append_inj_l in H). exact H.
Qed.

(** X13: A header signed over one body does not verify a request with
    another body: for a resolvable application, whatever the window the
    header was signed for, authenticate_application raises "Wrong
    digest", unless HMAC-SHA512 under the key collides on the signed text
    and one of the two texts the server builds from the request. *)
Theorem changed_body_is_rejected
    (st : State) (app key path qs body signed_body : string)
    (signed_window : Z) :
  occurs ":" app = false ->
  resolves_key st app key ->
  request_inputs st path qs body ->
  signed_body <> body ->
  ~ collision key
      (Spec.digest_input signed_window (method (request st))
         (Spec.canonical_path path qs) signed_body)
      (Spec.digest_input (Spec.window (clock st)) (method (request st))
         (Spec.canonical_path path qs) body) ->
  ~ collision key
      (Spec.digest_input signed_window (method (request st))
         (Spec.canonical_path path qs) signed_body)
      (Spec.digest_input (Spec.window (clock st) - 1) (method (request st))
         (Spec.canonical_path path qs) body) ->
  fst (authenticate_application
         (Spec.signature_header app
            (Spec.sign key signed_window (method (request st))
               (Spec.canonical_path path qs) signed_body)) st)
  = Raise wrong_digest.
Proof.
  intros Hcolon Hkey Hin Hne Hc1 Hc2.
  destruct (signature_header_parts app
              (Spec.sign key signed_window (method (request st))
                 (Spec.canonical_path path qs) signed_body) Hcolon) as [Hp Hs].
  destruct (authenticate_application_resolved _ _ _ _ _ _ _ _ Hp Hs Hin Hkey)
    as (st' & Hrun & Hclock & Hreq).
  rewrite Hrun.
  assert (Hinv : forall v,
    ~ collision key
        (Spec.digest_input signed_window (method (request st))
           (Spec.canonical_path path qs) signed_body)
        (Spec.digest_input v (method (request st))
           (Spec.canonical_path path qs) body) ->
    is_client_digest_valid
      (Spec.sign key signed_window (method (request st))
         (Spec.canonical_path path qs) signed_body)
      key v (method (request st)) (Spec.canonical_path path qs) body = false).
  { intros v Hc.
    destruct (is_client_digest_valid _ key v _ _ body) eqn:E; [|reflexivity].
    apply is_client_digest_valid_spec in E. exfalso. apply Hc. split.
    - intros Ht. apply Hne. eapply format_text_body_inj. exact Ht.
    - exact E. }
  rewrite verdict_rejects; [reflexivity| |]; rewrite Hclock; apply Hinv.
  - exact Hc1.
  - exact Hc2.
Qed.

Lemma changed_body_is_rejected_witness :
  fst (authenticate_application Notes.header
         (Demo.state Demo.signed_at (Notes.post "/notes/a b" "d")))
  = Raise wrong_digest.
Proof.
  apply (changed_body_is_rejected
           (Demo.state Demo.signed_at (Notes.post "/notes/a b" "d"))
           "svc-a" "K" "/notes/a b" EmptyString "d" "c"
           (Spec.window Demo.signed_at)).
  - reflexivity.
  - right. split; [reflexivity|]. exists []. reflexivity.
  - repeat split.
  - discriminate.
  - intros [_ H]. vm_compute in H. discriminate.
  - intros [_ H]. vm_compute in H. discriminate.
Defined.
